(** * FD Clarity: the fixed-deposit calculator and its explanation request

    A shallow embedding of [src/components/fd-calculator.tsx] (the form
    schema, [onSubmit] and what the component renders) and of
    [src/ai/flows/explain-fd-results.ts] (the explanation flow).

    JavaScript numbers are IEEE 754 binary64 values, so [number] is Rocq's
    primitive [float]: [+], [-], [*] and [/] are the very operations the
    script performs, rounding included.  [Math.pow] belongs to the runtime
    and ECMAScript leaves its accuracy to the implementation; it is a
    variable of the sections that use it, and a theorem that needs
    something of it says so in a hypothesis.

    The asynchronous call is cut at its [await]: [onSubmit_begin] runs up to
    the call, [onSubmit_resume] from the moment the promise settles, and the
    page is a transition system over clicks and settled calls. *)

From Stdlib Require Import Floats ZArith List String Bool Lia.
Import ListNotations.

Set Warnings "-inexact-float".

Local Open Scope string_scope.
Local Open Scope float_scope.

(** ** JavaScript values used by the component *)

Module JS.

Definition number := float.

(** [NaN] is the only number for which [x == x] fails. *)
Definition isNaN (x : number) : bool := is_nan x.

(** [Number.isFinite]. *)
Definition isFinite (x : number) : bool :=
  negb (is_nan x) && negb (is_infinity x).

(** The numbers that count as false in a condition: [0], [-0] and [NaN]. *)
Definition falsy (x : number) : bool := (x =? 0) || is_nan x.

(** [obj[key]] on an object literal, for a key that is not one of the names
    every object inherits ([constructor], [toString] and the like): the
    value of the first matching own property, [undefined] ([None]) when
    there is none.  The component looks the table up at the names of the
    four frequencies only. *)
Fixpoint get {A : Type} (obj : list (string * A)) (key : string) : option A :=
  match obj with
  | [] => None
  | (k, v) :: rest => if String.eqb k key then Some v else get rest key
  end.

(** [v || d] where [v] is a number or [undefined]. *)
Definition or_else (v : option number) (d : number) : number :=
  match v with
  | Some x => if falsy x then d else x
  | None => d
  end.

(** A string in a condition: only the empty string is false. *)
Definition truthy_string (s : string) : bool :=
  match s with
  | EmptyString => false
  | _ => true
  end.

(** What a [throw] carries.  The first three are the ways the call to the
    text-generation service fails; [TypeError] is what reading a property
    of [null] raises; [ValidationError] is what a flow raises for a value
    that does not fit its input or output schema. *)
Inductive Error : Type :=
| NetworkError
| Timeout
| MalformedResponse
| TypeError
| ValidationError
| OtherError (msg : string).

(** How an expression completes (and how a promise settles). *)
Inductive Completion (A : Type) : Type :=
| Normal (a : A)
| Throw (e : Error).
Arguments Normal {A} a.
Arguments Throw {A} e.

End JS.
Import JS.

(** ** The form schema *)

(** [z.enum(["Annually", "Semi-annually", "Quarterly", "Monthly"])]. *)
Inductive CompoundingFrequency : Type :=
| Annually
| SemiAnnually
| Quarterly
| Monthly.

(** The string each member is at run time. *)
Definition frequency_name (f : CompoundingFrequency) : string :=
  match f with
  | Annually => "Annually"
  | SemiAnnually => "Semi-annually"
  | Quarterly => "Quarterly"
  | Monthly => "Monthly"
  end.

Definition frequency_options : list CompoundingFrequency :=
  [Annually; SemiAnnually; Quarterly; Monthly].

(** [type FormValues = z.infer<typeof formSchema>]. *)
Record FormValues : Type := mkFormValues {
  principal : number;
  tenure : number;
  interestRate : number;
  compoundingFrequency : CompoundingFrequency
}.

(** What the schema works on once [z.coerce] has applied [Number(...)] to
    the three numeric fields: the conversion of the inputs' text to numbers
    is not part of the model.  (A number input hands over the empty string
    for text that is not a number, and [Number('')] is [0].) *)
Record RawValues : Type := mkRawValues {
  raw_principal : number;
  raw_tenure : number;
  raw_interestRate : number;
  raw_compoundingFrequency : string
}.

Module Zod.

Inductive IssueCode : Type :=
| invalid_type
| too_small
| too_big
| invalid_enum_value.

Record Issue : Type := mkIssue {
  path : string;
  code : IssueCode;
  message : string
}.

(** A parse gives the value or the issues found. *)
Definition Parsed (A : Type) : Type := (list Issue + A)%type.

Definition issues {A : Type} (r : Parsed A) : list Issue :=
  match r with
  | inl l => l
  | inr _ => []
  end.

Definition success {A : Type} (r : Parsed A) : bool :=
  match r with
  | inl _ => false
  | inr _ => true
  end.

(** One check of a number schema, with its message. *)
Inductive Check : Type :=
| min (value : number) (msg : string)
| max (value : number) (msg : string).

(** [.min(v)] complains when [x < v], [.max(v)] when [x > v]: both bounds
    are inclusive. *)
Definition run_check (p : string) (x : number) (c : Check) : list Issue :=
  match c with
  | min v msg => if x <? v then [mkIssue p too_small msg] else []
  | max v msg => if v <? x then [mkIssue p too_big msg] else []
  end.

(** [z.coerce.number({ invalid_type_error })] followed by checks: [NaN] is
    not of type number and stops the parse; otherwise every check runs. *)
Definition number_schema (invalid_type_error : string) (checks : list Check)
    (p : string) (x : number) : Parsed number :=
  if isNaN x then inl [mkIssue p invalid_type invalid_type_error]
  else
    match flat_map (run_check p x) checks with
    | [] => inr x
    | l => inl l
    end.

Definition enum_schema (p : string) (s : string) : Parsed CompoundingFrequency :=
  match find (fun f => String.eqb (frequency_name f) s) frequency_options with
  | Some f => inr f
  | None =>
      inl [mkIssue p invalid_enum_value
             ("Invalid enum value. Expected " ++
              String.concat " | "
                (map (fun f => "'" ++ frequency_name f ++ "'") frequency_options) ++
              ", received '" ++ s ++ "'")]
  end.

End Zod.

Definition principal_schema : string -> number -> Zod.Parsed number :=
  Zod.number_schema "Please enter a valid number."
    [Zod.min 1 "Principal must be at least 1."].

Definition tenure_schema : string -> number -> Zod.Parsed number :=
  Zod.number_schema "Please enter a valid number."
    [Zod.min 1 "Tenure must be at least 1 year."].

Definition interestRate_schema : string -> number -> Zod.Parsed number :=
  Zod.number_schema "Please enter a valid number."
    [Zod.min 0.1 "Interest rate must be at least 0.1%.";
     Zod.max 100 "Interest rate cannot exceed 100%."].

(** [formSchema]: an object schema parses every field and succeeds when no
    field raised an issue. *)
Definition formSchema (raw : RawValues) : Zod.Parsed FormValues :=
  let p := principal_schema "principal" (raw_principal raw) in
  let t := tenure_schema "tenure" (raw_tenure raw) in
  let r := interestRate_schema "interestRate" (raw_interestRate raw) in
  let f := Zod.enum_schema "compoundingFrequency" (raw_compoundingFrequency raw) in
  match p, t, r, f with
  | inr p', inr t', inr r', inr f' => inr (mkFormValues p' t' r' f')
  | _, _, _, _ => inl (Zod.issues p ++ Zod.issues t ++ Zod.issues r ++ Zod.issues f)%list
  end.

(** The raw values of a validated record, as the form holds them. *)
Definition to_raw (data : FormValues) : RawValues :=
  mkRawValues (principal data) (tenure data) (interestRate data)
    (frequency_name (compoundingFrequency data)).

(** ** The calculation *)

Record Results : Type := mkResults {
  maturityAmount : number;
  totalInterest : number
}.

(** The object literal indexed by the compounding frequency. *)
Definition periods_table : list (string * number) :=
  [("Annually", 1); ("Semi-annually", 2); ("Quarterly", 4); ("Monthly", 12)].

(** [const n = {...}[compoundingFrequency] || 1]. *)
Definition periods_per_year (f : CompoundingFrequency) : number :=
  or_else (get periods_table (frequency_name f)) 1.

Section Calculator.

Variable Math_pow : number -> number -> number.

(** The arithmetic of [onSubmit], lines 92 to 103. *)
Definition calculate (data : FormValues) : Results :=
  let rate := interestRate data / 100 in
  let n := periods_per_year (compoundingFrequency data) in
  let maturityAmount := principal data * Math_pow (1 + rate / n) (n * tenure data) in
  let totalInterest := maturityAmount - principal data in
  mkResults maturityAmount totalInterest.

End Calculator.

(** ** The explanation flow *)

Module Flow.

(** [ExplainFDResultsInputSchema]: six fields. *)
Record ExplainFDResultsInput : Type := mkInput {
  principal : number;
  tenure : number;
  interestRate : number;
  compoundingFrequency : CompoundingFrequency;
  maturityAmount : number;
  totalInterest : number
}.

(** [ExplainFDResultsOutputSchema]: one string field. *)
Record ExplainFDResultsOutput : Type := mkOutput {
  explanation : string
}.

(** What [await prompt(input)] comes to: the call throws, or it returns an
    object whose [output] is the structured reply, [null] when the model
    produced none. *)
Definition Generation : Type := Completion (option ExplainFDResultsOutput).

(** The [inputSchema] of [ai.defineFlow], checked before the body runs.
    The five [z.number()] fields must hold finite numbers: the check does
    not let [NaN] or an infinity pass as a number.  The frequency is one of
    the four by its type. *)
Definition valid_input (input : ExplainFDResultsInput) : bool :=
  isFinite (principal input) && isFinite (tenure input) &&
  isFinite (interestRate input) && isFinite (maturityAmount input) &&
  isFinite (totalInterest input).

(** The [outputSchema] of [ai.defineFlow], checked on what the body
    returns: an object with the string field, so not [null]. *)
Definition valid_output (output : option ExplainFDResultsOutput) : bool :=
  match output with
  | Some _ => true
  | None => false
  end.

(** [explainFDResultsFlow] as [ai.defineFlow] makes it: the input is
    checked against [inputSchema] and a request that fails is rejected
    without the body running; the body awaits the prompt and returns its
    output ([output!] asserts nothing at run time, so a [null] output is
    returned as it is); what the body returns is checked against
    [outputSchema]. *)
Definition explainFDResultsFlow
    (prompt : ExplainFDResultsInput -> Generation)
    (input : ExplainFDResultsInput) : Generation :=
  if valid_input input then
    match prompt input with
    | Throw e => Throw e
    | Normal output =>
        if valid_output output then Normal output else Throw ValidationError
    end
  else Throw ValidationError.

Definition explainFDResults
    (prompt : ExplainFDResultsInput -> Generation)
    (input : ExplainFDResultsInput) : Generation :=
  explainFDResultsFlow prompt input.

End Flow.

(** ** The component's state and effects *)

(** The three [useState] cells of [FdCalculator], and what [console.error]
    has written. *)
Record State : Type := mkState {
  results : option Results;
  explanation : option string;
  isLoading : bool;
  console : list (string * Error)
}.

Definition initial_state : State := mkState None None false [].

(** Code that updates the state and may throw. *)
Definition Eff (A : Type) : Type := State -> Completion A * State.

Definition ret {A : Type} (a : A) : Eff A := fun s => (Normal a, s).

Definition throw {A : Type} (e : Error) : Eff A := fun s => (Throw e, s).

Definition bind {A B : Type} (m : Eff A) (k : A -> Eff B) : Eff B :=
  fun s =>
    match m s with
    | (Normal a, s') => k a s'
    | (Throw e, s') => (Throw e, s')
    end.

Declare Scope eff_scope.
Delimit Scope eff_scope with eff.
Notation "x <- m ;; k" := (bind m (fun x => k))
  (at level 61, m at next level, right associativity) : eff_scope.
Notation "m ;; k" := (bind m (fun _ => k))
  (at level 61, right associativity) : eff_scope.
Local Open Scope eff_scope.

(** [try { body } catch (error) { handler } finally { finalizer }]. *)
Definition try_catch_finally {A : Type}
    (body : Eff A) (handler : Error -> Eff A) (finalizer : Eff unit) : Eff A :=
  fun s =>
    let '(c, s1) :=
      match body s with
      | (Normal a, s') => (Normal a, s')
      | (Throw e, s') => handler e s'
      end in
    match finalizer s1 with
    | (Normal _, s2) => (c, s2)
    | (Throw e, s2) => (Throw e, s2)
    end.

Definition setResults (r : option Results) : Eff unit :=
  fun s => (Normal tt, mkState r (explanation s) (isLoading s) (console s)).

Definition setExplanation (e : option string) : Eff unit :=
  fun s => (Normal tt, mkState (results s) e (isLoading s) (console s)).

Definition setIsLoading (b : bool) : Eff unit :=
  fun s => (Normal tt, mkState (results s) (explanation s) b (console s)).

Definition console_error (msg : string) (e : Error) : Eff unit :=
  fun s => (Normal tt,
            mkState (results s) (explanation s) (isLoading s) (console s ++ [(msg, e)])).

(** [await p]: the value of a fulfilled promise, the reason of a rejected
    one thrown. *)
Definition await {A : Type} (p : Completion A) : Eff A :=
  match p with
  | Normal a => ret a
  | Throw e => throw e
  end.

(** [aiResponse.explanation]: a [TypeError] when [aiResponse] is [null]. *)
Definition get_explanation (aiResponse : option Flow.ExplainFDResultsOutput) : Eff string :=
  match aiResponse with
  | Some o => ret (Flow.explanation o)
  | None => throw TypeError
  end.

Definition fallback_explanation : string :=
  "Could not generate an explanation at this time. Please try again later.".

Section Component.

Variable Math_pow : number -> number -> number.

(** The argument of the call [explainFDResults({...})]. *)
Definition explanation_request (data : FormValues) (r : Results) : Flow.ExplainFDResultsInput :=
  Flow.mkInput (principal data) (tenure data) (interestRate data)
    (compoundingFrequency data) (maturityAmount r) (totalInterest r).

(** [onSubmit] up to the point where it calls [explainFDResults] and waits:
    the result is the request it sends. *)
Definition onSubmit_begin (data : FormValues) : Eff Flow.ExplainFDResultsInput :=
  setIsLoading true ;;
  setResults None ;;
  setExplanation None ;;
  let r := calculate Math_pow data in
  setResults (Some r) ;;
  ret (explanation_request data r).

(** [onSubmit] from the moment the promise of [explainFDResults] settles. *)
Definition onSubmit_resume (settled : Flow.Generation) : Eff unit :=
  try_catch_finally
    (aiResponse <- await settled ;;
     e <- get_explanation aiResponse ;;
     setExplanation (Some e))
    (fun error =>
       console_error "AI explanation failed:" error ;;
       setExplanation (Some fallback_explanation))
    (setIsLoading false).

(** A whole run of [onSubmit] against a given collaborator. *)
Definition onSubmit (prompt : Flow.ExplainFDResultsInput -> Flow.Generation)
    (data : FormValues) : Eff unit :=
  request <- onSubmit_begin data ;;
  onSubmit_resume (Flow.explainFDResults prompt request).

(** *** What the component shows *)

Definition truthy_explanation (e : option string) : bool :=
  match e with
  | Some s => truthy_string s
  | None => false
  end.

Definition is_some {A : Type} (o : option A) : bool :=
  match o with
  | Some _ => true
  | None => false
  end.

Record View : Type := mkView {
  submit_disabled : bool;
  shown_results : option Results;
  shown_skeleton : bool;
  shown_explanation : option string
}.

(** The [return (...)] of [FdCalculator], reduced to what depends on the
    state: the button's [disabled], the results block, and the explanation
    block with either its skeleton or its text. *)
Definition render (s : State) : View :=
  let footer := isLoading s || is_some (results s) || truthy_explanation (explanation s) in
  let explanation_block := footer && (isLoading s || truthy_explanation (explanation s)) in
  let waiting := isLoading s && negb (truthy_explanation (explanation s)) in
  mkView
    (isLoading s)
    (if footer && negb (isLoading s) then results s else None)
    (explanation_block && waiting)
    (if explanation_block && negb waiting then explanation s else None).

(** *** The page as a transition system *)

(** The component together with the form's errors and the calls to
    [explainFDResults] that have not settled yet, each with the request it
    was made with. *)
Record Page : Type := mkPage {
  component : State;
  errors : list Zod.Issue;
  pending : list (nat * Flow.ExplainFDResultsInput);
  next_call : nat
}.

Definition initial_page : Page := mkPage initial_state [] [] 0.

Inductive Event : Type :=
| Submit (raw : RawValues)
| Settle (call : nat) (reply : Flow.Generation).

Fixpoint lookup_call (call : nat) (l : list (nat * Flow.ExplainFDResultsInput))
    : option Flow.ExplainFDResultsInput :=
  match l with
  | [] => None
  | (c, request) :: rest => if Nat.eqb c call then Some request else lookup_call call rest
  end.

Definition remove_call (call : nat) (l : list (nat * Flow.ExplainFDResultsInput))
    : list (nat * Flow.ExplainFDResultsInput) :=
  filter (fun cr => negb (Nat.eqb (fst cr) call)) l.

(** [form.handleSubmit(onSubmit)]: the resolver runs the schema; [onSubmit]
    is called with the parsed values only when the schema accepts them,
    otherwise the issues become the form's errors. *)
Definition handleSubmit (raw : RawValues) (p : Page) : Page :=
  match formSchema raw with
  | inl issues => mkPage (component p) issues (pending p) (next_call p)
  | inr data =>
      match onSubmit_begin data (component p) with
      | (Normal request, s) =>
          mkPage s [] ((next_call p, request) :: pending p) (S (next_call p))
      | (Throw _, s) => mkPage s [] (pending p) (next_call p)
      end
  end.

(** One event, run to completion as JavaScript runs a handler: a click on
    the submit button does nothing while the button is disabled; a call
    that settles resumes the [onSubmit] waiting for it, [reply] being what
    the promise of [explainFDResults] settled with.  The button is disabled
    as the last render left it, and the component is taken to have rendered
    between two events. *)
Definition step (p : Page) (ev : Event) : Page :=
  match ev with
  | Submit raw =>
      if submit_disabled (render (component p)) then p else handleSubmit raw p
  | Settle call reply =>
      match lookup_call call (pending p) with
      | None => p
      | Some _ =>
          mkPage (snd (onSubmit_resume reply (component p))) (errors p)
            (remove_call call (pending p)) (next_call p)
      end
  end.

Definition run (p : Page) (evs : list Event) : Page := fold_left step evs p.

End Component.

(** What holds of every page that events can lead to: either nothing is
    pending and the button is enabled, or the button is disabled and the one
    pending call is the one whose results are stored. *)
Definition page_invariant (p : Page) : Prop :=
  (isLoading (component p) = false /\ pending p = []) \/
  (isLoading (component p) = true /\
   exists call request,
     pending p = [(call, request)] /\
     results (component p) =
       Some (mkResults (Flow.maturityAmount request) (Flow.totalInterest request))).

(** ** A power function to test assumptions against

    [Math.pow] for an exponent that is a positive whole number, by repeated
    multiplication, and [NaN] for any other exponent.  The theorems below
    never use it; it shows that what some of them assume of [Math.pow] at a
    given pair of arguments is met by an actual function. *)

Definition whole_exponent (y : number) : option positive :=
  match Prim2SF y with
  | S754_finite false m e =>
      match e with
      | Z0 => Some m
      | Zpos k => Some (Pos.shiftl m (Npos k))
      | Zneg k =>
          if Z.eqb (Z.modulo (Zpos m) (Z.pow 2 (Zpos k))) 0
          then Some (Z.to_pos (Z.div (Zpos m) (Z.pow 2 (Zpos k))))
          else None
      end
  | _ => None
  end.

Definition pow_repeated (x y : number) : number :=
  match whole_exponent y with
  | Some k => Pos.iter (fun acc => acc * x) 1 k
  | None => nan
  end.

(** ** Comparisons of numbers as propositions *)

Definition lt_number (x y : number) : Prop := (x <? y) = true.
Definition le_number (x y : number) : Prop := (x <=? y) = true.

Declare Scope number_scope.
Delimit Scope number_scope with number.
Infix "<" := lt_number : number_scope.
Infix "<=" := le_number : number_scope.

(** The schema turns the input down. *)
Definition rejected (raw : RawValues) : Prop := Zod.success (formSchema raw) = false.

(** The schema lets the values through. *)
Definition accepted (data : FormValues) : Prop :=
  Zod.success (formSchema (to_raw data)) = true.

(** The fields are of the kinds the form is about: three numbers (no
    [NaN]) and one of the four frequencies. *)
Definition well_formed (raw : RawValues) : Prop :=
  isNaN (raw_principal raw) = false /\
  isNaN (raw_tenure raw) = false /\
  isNaN (raw_interestRate raw) = false /\
  In (raw_compoundingFrequency raw) (map frequency_name frequency_options).

(** A principal below 1, a tenure below 1, or a rate outside [0.1, 100]. *)
Definition out_of_range (raw : RawValues) : Prop :=
  (raw_principal raw < 1 \/ raw_tenure raw < 1 \/
   raw_interestRate raw < 0.1 \/ 100 < raw_interestRate raw)%number.

(** A failed call to the explanation service: it threw (a network error, a
    timeout, a reply that does not parse), or it came back without a
    structured output. *)
Definition failed (g : Flow.Generation) : bool :=
  match g with
  | Throw _ => true
  | Normal None => true
  | Normal (Some _) => false
  end.

(** The form's [defaultValues], and the same deposit compounded monthly. *)
Definition default_values : FormValues := mkFormValues 100000 5 6.5 Annually.

Definition monthly_values : FormValues := mkFormValues 100000 5 6.5 Monthly.

(** The two arguments [onSubmit] passes to [Math.pow]. *)
Definition growth_base (data : FormValues) : number :=
  1 + (interestRate data / 100) / periods_per_year (compoundingFrequency data).

Definition growth_exponent (data : FormValues) : number :=
  periods_per_year (compoundingFrequency data) * tenure data.

(** ** Reading doubles

    What the proofs about magnitudes need of the specification of binary64
    arithmetic ([SpecFloat]): 53 bits of mantissa, exponents from -1074 to
    971, a normal number being [m * 2^e] with [2^52 <= m < 2^53]. *)

Local Open Scope Z_scope.

(** The format: 53 bits of mantissa, exponents from -1074 to 971. *)
Definition fexp64 (z : Z) : Z := Z.max (z - 53) (-1074).

(** [R] is a positive number of at least [m * 2^e], in the sense that
    suffices below: [R] is [+infinity], or a normal number whose exponent
    is above [e], or one with exponent [e] and mantissa at least [m]. *)
Definition at_least (m e : Z) (R : spec_float) : Prop :=
  match R with
  | S754_infinity false => True
  | S754_finite false m' e' =>
      Zpos (digits2_pos m') = 53 /\ (e < e' \/ (e' = e /\ m <= Zpos m'))
  | _ => False
  end.

Definition positive_number (R : spec_float) : Prop :=
  match R with
  | S754_infinity false => True
  | S754_finite false _ _ => True
  | _ => False
  end.

Definition SFone64 : spec_float := S754_finite false 4503599627370496 (-52).

Local Close Scope Z_scope.

(** ** More of the two files *)

(** The values of the four [SelectItem]s of the frequency field. *)
Definition select_items : list string :=
  ["Annually"; "Semi-annually"; "Quarterly"; "Monthly"].

(** The options of the enum in [ExplainFDResultsInputSchema]. *)
Definition flow_frequency_options : list string :=
  ["Annually"; "Semi-annually"; "Quarterly"; "Monthly"].

(** Whether that enum has a string among its options. *)
Definition flow_frequency_accepted (s : string) : bool :=
  existsb (String.eqb s) flow_frequency_options.

(** The issues of a parse that are about one field. *)
Definition issues_at {A : Type} (field : string) (r : Zod.Parsed A) : list Zod.Issue :=
  filter (fun i => String.eqb (Zod.path i) field) (Zod.issues r).

(** The explanation [onSubmit] leaves for a reply. *)
Definition explanation_for (reply : Flow.Generation) : string :=
  match reply with
  | Normal (Some o) => Flow.explanation o
  | _ => fallback_explanation
  end.

(** What the page is like between two events: nothing submitted yet, or
    waiting for the one pending call with the results already stored, or
    settled with results and an explanation. *)
Definition page_phase (p : Page) : Prop :=
  (component p = mkState None None false (console (component p)) /\ pending p = []) \/
  (exists r call request,
     component p = mkState (Some r) None true (console (component p)) /\
     pending p = [(call, request)]) \/
  (exists r e,
     component p = mkState (Some r) (Some e) false (console (component p)) /\
     pending p = []).

(** A prompt whose answer is always the empty text. *)
Definition empty_answer (_ : Flow.ExplainFDResultsInput) : Flow.Generation :=
  Normal (Some (Flow.mkOutput EmptyString)).

(** Event sequences to try things on: the default values submitted, and
    the same with the call then timing out. *)
Definition default_submission : list Event := [Submit (to_raw default_values)].

Definition timed_out_submission : list Event :=
  [Submit (to_raw default_values); Settle 0 (Throw Timeout)].

(** ** Reading roundings *)

(** What a right shift has kept, as one number: the mantissa, then the
    round bit, then the sticky bit. *)
Definition shr_weight (mrs : shr_record) : Z :=
  (4 * shr_m mrs + (if shr_r mrs then 2 else 0) + (if shr_s mrs then 1 else 0))%Z.

(** The double for a rounded mantissa [m] at exponent [e], where
    [2^52 <= m <= 2^53]: a carry to [2^53] moves to the next exponent, and
    beyond the largest exponent the result is [+infinity]. *)
Definition rounded (m e : Z) : spec_float :=
  let (m', e') := if (m =? 2 ^ 53)%Z then (2 ^ 52, e + 1)%Z else (m, e) in
  match m' with
  | Zpos p => if (e' <=? emax - prec)%Z then S754_finite false p e' else S754_infinity false
  | _ => S754_nan
  end.

(** * Properties *)

(** ** Binary64 arithmetic *)

Module Binary64.

Local Open Scope Z_scope.

Lemma fexp_binary64 (z : Z) : fexp prec emax z = fexp64 z.
Proof. reflexivity. Qed.

(** *** Number of bits *)

Lemma digits2_log2 (m : positive) : Zpos (digits2_pos m) = Z.log2 (Zpos m) + 1.
Proof.
  destruct m as [m|m|]; cbn [digits2_pos Z.log2]; try reflexivity;
    rewrite Pos2Z.inj_succ; f_equal;
    induction m as [m IH|m IH|]; cbn [digits2_pos Pos.size]; try reflexivity;
    rewrite !Pos2Z.inj_succ, IH; reflexivity.
Qed.

Lemma digits2_bounds (m : positive) :
  2 ^ (Zpos (digits2_pos m) - 1) <= Zpos m < 2 ^ Zpos (digits2_pos m).
Proof.
  rewrite digits2_log2.
  replace (Z.log2 (Zpos m) + 1 - 1) with (Z.log2 (Zpos m)) by lia.
  apply Z.log2_spec. lia.
Qed.

Lemma digits2_unique (m : positive) (d : Z) :
  2 ^ (d - 1) <= Zpos m < 2 ^ d -> Zpos (digits2_pos m) = d.
Proof.
  intros H. rewrite digits2_log2.
  assert (0 <= d - 1).
  { destruct (Z.le_gt_cases 0 (d - 1)) as [|Hneg]; [assumption|].
    rewrite (Z.pow_neg_r 2 (d - 1)) in H by lia.
    destruct (Z.le_gt_cases 0 d) as [Hd|Hd].
    - assert (d = 0) by lia. subst d. simpl in H. lia.
    - rewrite (Z.pow_neg_r 2 d) in H by lia. lia. }
  rewrite (Z.log2_unique (Zpos m) (d - 1)); [lia|assumption|].
  now replace (Z.succ (d - 1)) with d by lia.
Qed.

(** *** Shifting right *)

Lemma shr_1_m (mrs : shr_record) :
  0 <= shr_m mrs -> shr_m (shr_1 mrs) = shr_m mrs / 2.
Proof.
  destruct mrs as [m r s]. cbn [shr_m].
  destruct m as [|[p|p|]|p]; intros H; cbn [shr_1 shr_m]; try lia; try reflexivity.

  - apply Z.div_unique with (r := 1); lia.
  - apply Z.div_unique with (r := 0); lia.
Qed.

Lemma iter_shr_1_m (p : positive) (mrs : shr_record) :
  0 <= shr_m mrs ->
  shr_m (SpecFloat.iter_pos shr_1 p mrs) = shr_m mrs / 2 ^ Zpos p.
Proof.
  assert (Hpow : forall k : positive, 0 < 2 ^ Zpos k) by (intros; apply Z.pow_pos_nonneg; lia).
  revert mrs. induction p as [p IH|p IH|]; intros mrs H; cbn [SpecFloat.iter_pos].
  - assert (H1 : 0 <= shr_m (shr_1 mrs)).
    { rewrite shr_1_m by assumption. apply Z.div_pos; lia. }
    assert (H2 : 0 <= shr_m (SpecFloat.iter_pos shr_1 p (shr_1 mrs))).
    { rewrite IH by assumption. apply Z.div_pos; [assumption|apply Hpow]. }
    rewrite IH by assumption. rewrite IH by assumption. rewrite shr_1_m by assumption.
    pose proof (Hpow p).
    rewrite !Z.div_div by lia.
    f_equal.
    replace (Zpos p~1) with (1 + Zpos p + Zpos p) by lia.
    rewrite !Z.pow_add_r by lia. lia.
  - assert (H2 : 0 <= shr_m (SpecFloat.iter_pos shr_1 p mrs)).
    { rewrite IH by assumption. apply Z.div_pos; [assumption|apply Hpow]. }
    rewrite IH by assumption. rewrite IH by assumption.
    pose proof (Hpow p).
    rewrite !Z.div_div by lia.
    f_equal.
    replace (Zpos p~0) with (Zpos p + Zpos p) by lia.
    rewrite !Z.pow_add_r by lia. lia.
  - rewrite shr_1_m by assumption. reflexivity.
Qed.

Lemma shr_m_shr_record_of_loc (m : Z) (l : location) :
  shr_m (shr_record_of_loc m l) = m.
Proof. destruct l as [|[]]; reflexivity. Qed.

(** Shifting [m] right by [n >= 0] places. *)
Lemma shr_spec (m : Z) (l : location) (e n : Z) :
  0 <= m -> 0 <= n ->
  shr_m (fst (shr (shr_record_of_loc m l) e n)) = m / 2 ^ n /\
  snd (shr (shr_record_of_loc m l) e n) = e + n.
Proof.
  intros Hm Hn. destruct n as [|p|p]; cbn [shr fst snd]; try lia.
  - rewrite shr_m_shr_record_of_loc, Z.div_1_r. lia.
  - rewrite iter_shr_1_m by (rewrite shr_m_shr_record_of_loc; assumption).
    rewrite shr_m_shr_record_of_loc. lia.
Qed.

Lemma round_nearest_even_bounds (m : Z) (l : location) :
  m <= round_nearest_even m l <= m + 1.
Proof.
  destruct l as [|[]]; cbn [round_nearest_even]; try lia.
  destruct (Z.even m); lia.
Qed.

(** *** Rounding a mantissa of at least 53 bits *)

Lemma at_least_weaken (m e m0 e0 : Z) (R : spec_float) :
  at_least m e R -> e0 < e \/ (e0 = e /\ m0 <= m) -> at_least m0 e0 R.
Proof.
  destruct R as [s|[]|  |[] m' e']; cbn [at_least]; try tauto. lia.
Qed.

Lemma shr_fexp_spec (m e : Z) (l : location) (mrs : shr_record) (e' : Z) :
  0 <= m -> 0 <= fexp64 (Zdigits2 m + e) - e ->
  shr_fexp prec emax m e l = (mrs, e') ->
  shr_m mrs = m / 2 ^ (fexp64 (Zdigits2 m + e) - e) /\
  e' = fexp64 (Zdigits2 m + e).
Proof.
  intros Hm Hn. unfold shr_fexp. rewrite fexp_binary64. intros Hshr.
  destruct (shr_spec m l e _ Hm Hn) as [H1 H2].
  rewrite Hshr in H1, H2. cbn [fst snd] in H1, H2. split; [exact H1 | lia].
Qed.

Lemma Zdigits2_pos (m : positive) : Zdigits2 (Zpos m) = Zpos (digits2_pos m).
Proof. reflexivity. Qed.

Lemma binary_round_aux_at_least (q : positive) (e : Z) (l : location) :
  let d := Zpos (digits2_pos q) in
  53 <= d -> -1074 <= e + d - 53 ->
  at_least (Zpos q / 2 ^ (d - 53)) (e + d - 53)
    (binary_round_aux prec emax false (Zpos q) e l).
Proof.
  intros d Hd He. unfold binary_round_aux.
  destruct (shr_fexp prec emax (Zpos q) e l) as [mrs1 e1] eqn:Hshr1.
  assert (Hn1 : fexp64 (Zdigits2 (Zpos q) + e) = e + d - 53).
  { rewrite Zdigits2_pos. fold d. unfold fexp64. lia. }
  apply shr_fexp_spec in Hshr1; [|lia|lia].
  rewrite Hn1 in Hshr1. destruct Hshr1 as [Hm1 He1].
  replace (e + d - 53 - e) with (d - 53) in Hm1 by lia.
  set (m1 := Zpos q / 2 ^ (d - 53)) in *.
  assert (Hpow : 0 < 2 ^ (d - 53)) by (apply Z.pow_pos_nonneg; lia).
  assert (Hm1b : 2 ^ 52 <= m1 < 2 ^ 53).
  { pose proof (digits2_bounds q) as Hq. fold d in Hq.
    replace (d - 1) with (52 + (d - 53)) in Hq by lia.
    replace d with (53 + (d - 53)) in Hq at 2 by lia.
    rewrite !Z.pow_add_r in Hq by lia.
    unfold m1. split.
    - apply Z.div_le_lower_bound; lia.
    - apply Z.div_lt_upper_bound; lia. }
  pose proof (round_nearest_even_bounds (shr_m mrs1) (loc_of_shr_record mrs1)) as Hrne.
  set (m2 := round_nearest_even (shr_m mrs1) (loc_of_shr_record mrs1)) in *.
  rewrite Hm1 in Hrne. clearbody m2.
  destruct (shr_fexp prec emax m2 e1 loc_Exact) as [mrs2 e2] eqn:Hshr2.
  assert (Hm2 : 2 ^ 52 <= m2 <= 2 ^ 53) by lia.
  destruct m2 as [|m2|m2]; try (exfalso; lia).
  assert (Hcases : Zpos m2 = 2 ^ 53 \/ Zpos (digits2_pos m2) = 53).
  { destruct (Z.eq_dec (Zpos m2) (2 ^ 53)) as [Heq|Hne]; [left; lia|right].
    apply digits2_unique. lia. }
  destruct Hcases as [Hbig|Hd2].
  - assert (Hdig : Zpos (digits2_pos m2) = 54) by (apply digits2_unique; lia).
    apply shr_fexp_spec in Hshr2.
    + rewrite Zdigits2_pos, Hdig in Hshr2. destruct Hshr2 as [Hm Hex].
      assert (Hf : fexp64 (54 + e1) = e1 + 1) by (unfold fexp64; lia).
      rewrite Hf in Hm, Hex. replace (e1 + 1 - e1) with 1 in Hm by lia.
      rewrite Hm, Hbig. change (2 ^ 53 / 2 ^ 1) with (Zpos 4503599627370496).
      destruct (e2 <=? emax - prec); cbn [at_least]; [|exact I].
      split; [reflexivity | lia].
    + lia.
    + rewrite Zdigits2_pos, Hdig. unfold fexp64. lia.
  - apply shr_fexp_spec in Hshr2.
    + rewrite Zdigits2_pos, Hd2 in Hshr2. destruct Hshr2 as [Hm Hex].
      assert (Hf : fexp64 (53 + e1) = e1) by (unfold fexp64; lia).
      rewrite Hf in Hm, Hex. replace (e1 - e1) with 0 in Hm by lia.
      rewrite Z.div_1_r in Hm. rewrite Hm.
      destruct (e2 <=? emax - prec); cbn [at_least]; [|exact I].
      split; [exact Hd2 | lia].
    + lia.
    + rewrite Zdigits2_pos, Hd2. unfold fexp64. lia.
Qed.

Lemma digits2_53 (m : positive) :
  Zpos (digits2_pos m) = 53 -> 2 ^ 52 <= Zpos m < 2 ^ 53.
Proof. intros H. pose proof (digits2_bounds m) as Hb. rewrite H in Hb. exact Hb. Qed.

(** A valid number with exponent above the least one is normal. *)
Lemma valid_normal (s : bool) (m : positive) (e : Z) :
  valid_binary (S754_finite s m e) = true -> -1074 < e ->
  Zpos (digits2_pos m) = 53.
Proof.
  cbn [SpecFloat.valid_binary]. unfold bounded, canonical_mantissa.
  rewrite fexp_binary64. unfold fexp64.
  intros H He. apply andb_prop in H as [H _]. apply Z.eqb_eq in H. lia.
Qed.

Lemma valid_exponent (s : bool) (m : positive) (e : Z) :
  valid_binary (S754_finite s m e) = true -> -1074 <= e.
Proof.
  cbn [SpecFloat.valid_binary]. unfold bounded, canonical_mantissa.
  rewrite fexp_binary64. unfold fexp64.
  intros H. apply andb_prop in H as [H _]. apply Z.eqb_eq in H. lia.
Qed.

(** *** Multiplication *)

Lemma SFmul_at_least (mx my : positive) (ex ey : Z) :
  Zpos (digits2_pos mx) = 53 -> Zpos (digits2_pos my) = 53 ->
  -1074 <= ex + ey + 52 ->
  at_least (Zpos mx * Zpos my / 2 ^ 52) (ex + ey + 52)
    (SFmul prec emax (S754_finite false mx ex) (S754_finite false my ey)).
Proof.
  intros Hx Hy He. cbn [SFmul xorb].
  apply digits2_53 in Hx, Hy.
  assert (Hprod : 2 ^ 104 <= Zpos (mx * my) < 2 ^ 106).
  { rewrite Pos2Z.inj_mul. change (2 ^ 104) with (2 ^ 52 * 2 ^ 52).
    change (2 ^ 106) with (2 ^ 53 * 2 ^ 53). nia. }
  destruct (Z.lt_ge_cases (Zpos (mx * my)) (2 ^ 105)) as [Hlt|Hge].
  - assert (Hd : Zpos (digits2_pos (mx * my)) = 105) by (apply digits2_unique; lia).
    pose proof (binary_round_aux_at_least (mx * my) (ex + ey) loc_Exact) as H.
    cbv zeta in H. rewrite Hd in H.
    rewrite <- Pos2Z.inj_mul.
    replace (ex + ey + 52) with (ex + ey + 105 - 53) by lia.
    apply H; lia.
  - assert (Hd : Zpos (digits2_pos (mx * my)) = 106) by (apply digits2_unique; lia).
    pose proof (binary_round_aux_at_least (mx * my) (ex + ey) loc_Exact) as H.
    cbv zeta in H. rewrite Hd in H.
    eapply at_least_weaken; [apply H; lia|]. left. lia.
Qed.

(** *** Division *)

Lemma SFdiv_core_binary_normal (mx mc : positive) (ex ec : Z) :
  Zpos (digits2_pos mx) = 53 -> Zpos (digits2_pos mc) = 53 ->
  -1074 <= ex - ec - 53 ->
  SFdiv_core_binary prec emax (Zpos mx) ex (Zpos mc) ec =
  (Zpos mx * 2 ^ 53 / Zpos mc, ex - ec - 53,
   new_location (Zpos mc) ((Zpos mx * 2 ^ 53) mod Zpos mc)).
Proof.
  intros Hx Hc He. unfold SFdiv_core_binary.
  rewrite !Zdigits2_pos, Hx, Hc, fexp_binary64.
  assert (He' : Z.min (fexp64 (53 + ex - (53 + ec))) (ex - ec) = ex - ec - 53)
    by (unfold fexp64; lia).
  rewrite He'. replace (ex - ec - (ex - ec - 53)) with 53 by lia.
  rewrite Z.shiftl_mul_pow2 by lia.
  unfold Z.div, Z.modulo.
  destruct (Z.div_eucl (Zpos mx * 2 ^ 53) (Zpos mc)) as [q r]. reflexivity.
Qed.

Lemma SFdiv_at_least (mx mc : positive) (ex ec : Z) :
  Zpos (digits2_pos mx) = 53 -> Zpos (digits2_pos mc) = 53 ->
  -1074 <= ex - ec - 53 ->
  at_least (2 ^ 52) (ex - ec - 53)
    (SFdiv prec emax (S754_finite false mx ex) (S754_finite false mc ec)).
Proof.
  intros Hx Hc He. cbn [SFdiv xorb].
  rewrite SFdiv_core_binary_normal by assumption.
  apply digits2_53 in Hx, Hc.
  assert (Hq : 2 ^ 52 <= Zpos mx * 2 ^ 53 / Zpos mc).
  { apply Z.div_le_lower_bound; [lia|].
    change (2 ^ 53) with (2 * 2 ^ 52) in *. nia. }
  destruct (Zpos mx * 2 ^ 53 / Zpos mc) as [|q|q] eqn:Eq; try (exfalso; lia).
  set (d := Zpos (digits2_pos q)).
  assert (Hd : 53 <= d).
  { pose proof (digits2_bounds q) as Hb. fold d in Hb.
    destruct (Z.lt_ge_cases d 53) as [Hlt|]; [|assumption].
    assert (2 ^ d <= 2 ^ 52) by (apply Z.pow_le_mono_r; lia). lia. }
  pose proof (binary_round_aux_at_least q (ex - ec - 53)
                (new_location (Zpos mc) ((Zpos mx * 2 ^ 53) mod Zpos mc))) as H.
  cbv zeta in H. fold d in H.
  eapply at_least_weaken; [apply H; lia|].
  destruct (Z.eq_dec d 53) as [Heq|Hne]; [right|left; lia].
  split; [lia|]. rewrite Heq. change (2 ^ (53 - 53)) with 1. rewrite Z.div_1_r. exact Hq.
Qed.

(** *** Aligning mantissas *)

Lemma iter_xO (m d : positive) : Zpos (Pos.iter xO m d) = Zpos m * 2 ^ Zpos d.
Proof.
  induction d as [|d IH] using Pos.peano_ind.
  - cbn [Pos.iter]. rewrite Pos2Z.inj_xO. change (2 ^ 1) with 2. lia.
  - rewrite Pos.iter_succ, Pos2Z.inj_xO, IH, Pos2Z.inj_succ, Z.pow_succ_r by lia. lia.
Qed.

Lemma shl_align_spec (m : positive) (e e' : Z) :
  e' <= e ->
  Zpos (fst (shl_align m e e')) = Zpos m * 2 ^ (e - e') /\
  snd (shl_align m e e') = e'.
Proof.
  intros H. unfold shl_align.
  destruct (e' - e) as [|d|d] eqn:Hd; try lia; cbn [fst snd].
  - replace (e - e') with 0 by lia. lia.
  - rewrite iter_xO. replace (e - e') with (Zpos d) by lia. lia.
Qed.

Lemma shl_align_none (m : positive) (e e' : Z) :
  e <= e' -> shl_align m e e' = (m, e).
Proof.
  intros H. unfold shl_align. destruct (e' - e) as [|d|d] eqn:Hd; try lia; reflexivity.
Qed.

(** *** Rounding an integer mantissa *)

Lemma binary_round_at_least (m : positive) (e : Z) :
  let d := Zpos (digits2_pos m) in
  53 <= d -> -1074 <= e + d - 53 ->
  at_least (Zpos m / 2 ^ (d - 53)) (e + d - 53) (binary_round prec emax false m e).
Proof.
  intros d Hd He. unfold binary_round. rewrite fexp_binary64.
  rewrite shl_align_none by (fold d; unfold fexp64; lia).
  now apply binary_round_aux_at_least.
Qed.

Lemma shr_fexp_positive (m e : Z) (l : location) (mrs : shr_record) (e' : Z) :
  0 < m -> -1074 <= e ->
  shr_fexp prec emax m e l = (mrs, e') -> 0 < shr_m mrs /\ -1074 <= e'.
Proof.
  intros Hm He. unfold shr_fexp. rewrite fexp_binary64.
  destruct m as [|m|m]; try lia. rewrite Zdigits2_pos.
  set (d := Zpos (digits2_pos m)).
  destruct (fexp64 (d + e) - e) as [|n|n] eqn:Hn; cbn [shr].
  - intros [= <- <-]. rewrite shr_m_shr_record_of_loc. lia.
  - intros [= <- <-]. rewrite iter_shr_1_m by (rewrite shr_m_shr_record_of_loc; lia).
    rewrite shr_m_shr_record_of_loc.
    assert (Hnd : Zpos n = d - 53) by (unfold fexp64 in Hn; lia).
    split; [|lia].
    pose proof (digits2_bounds m) as Hb. fold d in Hb.
    apply Z.lt_le_trans with (2 ^ 52); [reflexivity|].
    apply Z.div_le_lower_bound; [apply Z.pow_pos_nonneg; lia|].
    rewrite Hnd, <- Z.pow_add_r by lia.
    replace (d - 53 + 52) with (d - 1) by lia. lia.
  - intros [= <- <-]. rewrite shr_m_shr_record_of_loc. lia.
Qed.

Lemma binary_round_aux_positive (q : positive) (e : Z) (l : location) :
  -1074 <= e -> positive_number (binary_round_aux prec emax false (Zpos q) e l).
Proof.
  intros He. unfold binary_round_aux.
  destruct (shr_fexp prec emax (Zpos q) e l) as [mrs1 e1] eqn:H1.
  apply shr_fexp_positive in H1 as [Hm1 He1]; [|lia|lia].
  pose proof (round_nearest_even_bounds (shr_m mrs1) (loc_of_shr_record mrs1)) as Hr.
  destruct (shr_fexp prec emax _ e1 loc_Exact) as [mrs2 e2] eqn:H2.
  apply shr_fexp_positive in H2 as [Hm2 He2]; [|lia|lia].
  destruct (shr_m mrs2); try lia.
  destruct (e2 <=? emax - prec); exact I.
Qed.

Lemma binary_round_positive (m : positive) (e : Z) :
  -1074 <= e -> positive_number (binary_round prec emax false m e).
Proof.
  intros He. unfold binary_round. rewrite fexp_binary64.
  set (f := fexp64 (Zpos (digits2_pos m) + e)).
  destruct (Z.le_gt_cases e f) as [Hle|Hgt].
  - rewrite shl_align_none by assumption. now apply binary_round_aux_positive.
  - destruct (shl_align_spec m e f) as [_ H2]; [lia|].
    destruct (shl_align m e f) as [mz ez]. cbn [snd] in H2. subst ez.
    apply binary_round_aux_positive. unfold f, fexp64. lia.
Qed.

(** *** Addition to one *)

Lemma SFadd_one_at_least (my : positive) (ey : Z) :
  Zpos (digits2_pos my) = 53 -> -104 <= ey ->
  at_least (2 ^ 52 + 1) (-52) (SFadd prec emax SFone64 (S754_finite false my ey)).
Proof.
  intros Hy He. unfold SFone64. cbn [SFadd cond_Zopp].
  apply digits2_53 in Hy.
  set (ez := Z.min (-52) ey).
  destruct (shl_align_spec 4503599627370496 (-52) ez) as [Ha _]; [unfold ez; lia|].
  destruct (shl_align_spec my ey ez) as [Hb _]; [unfold ez; lia|].
  set (a := fst (shl_align 4503599627370496 (-52) ez)) in *.
  set (b := fst (shl_align my ey ez)) in *.
  change (Zpos a + Zpos b) with (Zpos (a + b)). cbn [binary_normalize].
  change (Zpos 4503599627370496) with (2 ^ 52) in Ha.
  destruct (Z.le_gt_cases (-52) ey) as [Hge|Hlt].
  - (* the sum is at least two *)
    assert (Hez : ez = -52) by (unfold ez; lia).
    rewrite Hez in *. change (2 ^ (-52 - -52)) with 1 in Ha.
    assert (Hbb : 2 ^ 52 <= Zpos b).
    { rewrite Hb. assert (0 < 2 ^ (ey - -52)) by (apply Z.pow_pos_nonneg; lia). nia. }
    assert (Hs : 2 ^ 53 <= Zpos (a + b)) by (rewrite Pos2Z.inj_add; lia).
    set (d := Zpos (digits2_pos (a + b))).
    assert (Hd : 54 <= d).
    { pose proof (digits2_bounds (a + b)) as Hbd. fold d in Hbd.
      destruct (Z.lt_ge_cases d 54) as [Hl|]; [|assumption].
      assert (2 ^ d <= 2 ^ 53) by (apply Z.pow_le_mono_r; lia). lia. }
    eapply at_least_weaken; [apply binary_round_at_least; fold d; lia|].
    fold d. left. lia.
  - (* the smaller term is shifted into the mantissa of one *)
    assert (Hez : ez = ey) by (unfold ez; lia).
    rewrite Hez in *. replace (ey - ey) with 0 in Hb by lia.
    change (2 ^ 0) with 1 in Hb.
    set (k := -52 - ey) in *.
    assert (Hk : 1 <= k <= 52) by (unfold k; lia).
    assert (Hpk : 2 <= 2 ^ k <= 2 ^ 52).
    { split; [change 2 with (2 ^ 1) at 1|]; apply Z.pow_le_mono_r; lia. }
    assert (Hsum : Zpos (a + b) = 2 ^ (52 + k) + Zpos my).
    { rewrite Pos2Z.inj_add, Ha, Hb, Z.pow_add_r by lia. lia. }
    assert (Hd : Zpos (digits2_pos (a + b)) = 53 + k).
    { apply digits2_unique. rewrite Hsum.
      replace (53 + k - 1) with (52 + k) by lia.
      replace (53 + k) with (1 + (52 + k)) by lia.
      rewrite (Z.pow_add_r 2 1) by lia. change (2 ^ 1) with 2.
      assert (2 ^ 53 <= 2 ^ (52 + k)) by (apply Z.pow_le_mono_r; lia). lia. }
    pose proof (binary_round_at_least (a + b) ey) as H. cbv zeta in H.
    rewrite Hd in H.
    eapply at_least_weaken; [apply H; lia|].
    right. split; [unfold k; lia|].
    replace (53 + k - 53) with k by lia.
    apply Z.div_le_lower_bound; [lia|].
    rewrite Hsum, Z.pow_add_r by lia. lia.
Qed.

(** *** Subtraction of a smaller number *)

Lemma SFsub_positive (mx my : positive) (ex ey : Z) :
  Zpos (digits2_pos mx) = 53 -> Zpos (digits2_pos my) = 53 ->
  -1074 <= ey ->
  ey < ex \/ (ex = ey /\ Zpos my < Zpos mx) ->
  positive_number (SFsub prec emax (S754_finite false mx ex) (S754_finite false my ey)).
Proof.
  intros Hx Hy He Hlt. cbn [SFsub cond_Zopp].
  apply digits2_53 in Hx, Hy.
  set (ez := Z.min ex ey).
  assert (Hez : ez = ey) by (unfold ez; lia).
  destruct (shl_align_spec mx ex ez) as [Ha _]; [lia|].
  destruct (shl_align_spec my ey ez) as [Hb _]; [lia|].
  set (a := fst (shl_align mx ex ez)) in *.
  set (b := fst (shl_align my ey ez)) in *.
  rewrite Hez in *. replace (ey - ey) with 0 in Hb by lia. change (2 ^ 0) with 1 in Hb.
  assert (Hab : Zpos b < Zpos a).
  { rewrite Ha, Hb. destruct Hlt as [Hl|[-> Hl]].
    - assert (2 ^ 1 <= 2 ^ (ex - ey)) by (apply Z.pow_le_mono_r; lia).
      change (2 ^ 1) with 2 in *. change (2 ^ 53) with (2 * 2 ^ 52) in *. nia.
    - replace (ey - ey) with 0 by lia. change (2 ^ 0) with 1. lia. }
  destruct (Zpos a - Zpos b) as [|m|m] eqn:Hdiff; try lia.
  cbn [binary_normalize]. now apply binary_round_positive.
Qed.

(** *** Comparisons *)

Lemma SFltb_at_least (m : positive) (e : Z) (R : spec_float) :
  at_least (Zpos m + 1) e R -> SFltb (S754_finite false m e) R = true.
Proof.
  destruct R as [s|[]| |[] m' e']; cbn [at_least]; try tauto; intros H;
    try reflexivity.
  unfold SFltb. cbn [SFcompare]. destruct H as [_ [H|[-> H]]].
  - apply Z.compare_lt_iff in H. now rewrite H.
  - rewrite Z.compare_refl.
    assert (Hlt : (m < m')%positive) by lia.
    apply Pos.compare_lt_iff in Hlt. rewrite Pos.compare_cont_spec, Hlt. reflexivity.
Qed.

(** What [not (R < c)] says of a number [R] that is not [NaN], for a
    positive normal [c]. *)
Lemma not_SFltb_at_least (m : positive) (e : Z) (R : spec_float) :
  valid_binary R = true -> -1074 < e ->
  R <> S754_nan ->
  SFltb R (S754_finite false m e) = false ->
  at_least (Zpos m) e R.
Proof.
  intros Hv He Hnan. unfold SFltb.
  destruct R as [s|[]| |[] m' e']; cbn [SFcompare at_least]; try discriminate;
    try tauto; try (destruct s; discriminate).
  destruct (Z.compare_spec e' e) as [Heq|Hlt|Hgt]; try discriminate; intros H.
  - subst e'. split; [now apply valid_normal with (s := false) (e := e)|]. right.
    split; [reflexivity|]. rewrite Pos.compare_cont_spec in H. cbn in H.
    destruct (Pos.compare_spec m' m); try discriminate; lia.
  - split; [apply valid_normal with (s := false) (e := e'); [assumption|lia]|]. now left.
Qed.

Lemma at_least_SFleb (m e : Z) (X Y : spec_float) :
  valid_binary Y = true -> -1074 < e ->
  at_least m e X -> SFleb X Y = true -> at_least m e Y.
Proof.
  intros Hv He HX. unfold SFleb.
  destruct X as [sx|[]| |[] mx ex]; cbn [at_least] in HX; try tauto;
    destruct Y as [sy|[]| |[] my ey]; cbn [SFcompare at_least]; try discriminate; try tauto.
  destruct HX as [_ HX].
  destruct (Z.compare_spec ex ey) as [Heq|Hlt|Hgt]; try discriminate; intros H.
  - subst ey. split; [apply valid_normal with (s := false) (e := ex); [assumption|lia]|].
    rewrite Pos.compare_cont_spec in H. cbn in H.
    destruct (Pos.compare_spec mx my); try discriminate; lia.
  - split; [apply valid_normal with (s := false) (e := ey); [assumption|lia]|]. lia.
Qed.

Lemma SFltb_zero_positive (R : spec_float) :
  positive_number R -> SFltb (S754_zero false) R = true.
Proof. destruct R as [s|[]| |[] m e]; cbn; tauto. Qed.

(** *** Exact results *)

Lemma shr_1_double (z : Z) :
  0 < z ->
  shr_1 (Build_shr_record (2 * z) false false) = Build_shr_record z false false.
Proof. destruct z; try lia. intros _. reflexivity. Qed.

Lemma iter_shr_1_exact (p : positive) (z : Z) :
  0 < z ->
  SpecFloat.iter_pos shr_1 p (Build_shr_record (z * 2 ^ Zpos p) false false) =
  Build_shr_record z false false.
Proof.
  assert (Hpow : forall k : positive, 0 < 2 ^ Zpos k) by (intros; apply Z.pow_pos_nonneg; lia).
  revert z. induction p as [p IH|p IH|]; intros z Hz; cbn [SpecFloat.iter_pos].
  - replace (z * 2 ^ Zpos p~1) with (2 * (z * 2 ^ Zpos p * 2 ^ Zpos p)).
    + pose proof (Hpow p).
      rewrite shr_1_double by nia. rewrite IH by nia. now apply IH.
    + replace (Zpos p~1) with (1 + Zpos p + Zpos p) by lia.
      rewrite !Z.pow_add_r by lia. change (2 ^ 1) with 2. lia.
  - replace (z * 2 ^ Zpos p~0) with (z * 2 ^ Zpos p * 2 ^ Zpos p).
    + pose proof (Hpow p). rewrite IH by nia. now apply IH.
    + replace (Zpos p~0) with (Zpos p + Zpos p) by lia.
      rewrite !Z.pow_add_r by lia. lia.
  - change (2 ^ 1) with 2. rewrite Z.mul_comm. now apply shr_1_double.
Qed.

Lemma digits2_shift (m : positive) (k : Z) (q : positive) :
  0 <= k -> Zpos q = Zpos m * 2 ^ k ->
  Zpos (digits2_pos q) = Zpos (digits2_pos m) + k.
Proof.
  intros Hk Hq. apply digits2_unique. rewrite Hq.
  pose proof (digits2_bounds m) as Hb.
  assert (0 < 2 ^ k) by (apply Z.pow_pos_nonneg; lia).
  replace (Zpos (digits2_pos m) + k - 1) with (Zpos (digits2_pos m) - 1 + k) by lia.
  rewrite !Z.pow_add_r by lia. nia.
Qed.

(** A valid mantissa written [k] bits wider rounds back to itself. *)
Lemma binary_round_aux_exact (s : bool) (m : positive) (e k : Z) :
  bounded prec emax m e = true -> 0 <= k ->
  binary_round_aux prec emax s (Zpos m * 2 ^ k) (e - k) loc_Exact = S754_finite s m e.
Proof.
  intros Hb Hk. unfold bounded, canonical_mantissa in Hb.
  apply andb_prop in Hb as [Hc Hmax]. apply Z.eqb_eq in Hc. rewrite fexp_binary64 in Hc.
  assert (Hpos : 0 < 2 ^ k) by (apply Z.pow_pos_nonneg; lia).
  destruct (Zpos m * 2 ^ k) as [|q|q] eqn:Hq; try lia.
  pose proof (digits2_shift m k q Hk (eq_sym Hq)) as Hd.
  assert (Hshr : shr_fexp prec emax (Zpos q) (e - k) loc_Exact =
                 (Build_shr_record (Zpos m) false false, e)).
  { unfold shr_fexp. rewrite fexp_binary64, Zdigits2_pos, Hd.
    replace (Zpos (digits2_pos m) + k + (e - k)) with (Zpos (digits2_pos m) + e) by lia.
    rewrite Hc. replace (e - (e - k)) with k by lia.
    cbn [shr_record_of_loc]. destruct k as [|k|k]; try lia; cbn [shr].
    - f_equal; [f_equal|]; lia.
    - rewrite <- Hq, iter_shr_1_exact by lia. f_equal. lia. }
  unfold binary_round_aux. rewrite Hshr.
  cbn [shr_m loc_of_shr_record round_nearest_even].
  unfold shr_fexp. rewrite fexp_binary64, Zdigits2_pos, Hc, Z.sub_diag.
  cbn [shr_record_of_loc shr shr_m]. now rewrite Hmax.
Qed.

Lemma SFmul_one_l (X : spec_float) :
  valid_binary X = true -> SFmul prec emax SFone64 X = X.
Proof.
  destruct X as [s|s| |s m e]; intros Hv; cbn [SFmul SFone64 xorb]; try reflexivity.
  cbn [SpecFloat.valid_binary] in Hv.
  rewrite <- (binary_round_aux_exact s m e 52 Hv) by lia.
  f_equal; lia.
Qed.

Lemma SFdiv_one_r (X : spec_float) :
  valid_binary X = true -> SFdiv prec emax X SFone64 = X.
Proof.
  destruct X as [s|s| |s m e]; intros Hv; unfold SFone64; cbn [SFdiv];
    rewrite ?xorb_false_r; try reflexivity.
  cbn [SpecFloat.valid_binary] in Hv.
  pose proof Hv as Hb. unfold bounded, canonical_mantissa in Hb.
  apply andb_prop in Hb as [Hc _]. apply Z.eqb_eq in Hc. rewrite fexp_binary64 in Hc.
  unfold SFdiv_core_binary. rewrite !Zdigits2_pos, fexp_binary64.
  change (Zpos (digits2_pos 4503599627370496)) with 53.
  set (d := Zpos (digits2_pos m)) in *.
  set (e' := Z.min (fexp64 (d + e - (53 + -52))) (e - -52)).
  assert (Hk : e - -52 - e' = 52 + (e - e') /\ 0 <= e - e' <= 1).
  { unfold e', fexp64 in *. lia. }
  destruct Hk as [Hs Hk]. rewrite Hs.
  destruct (52 + (e - e')) as [|n|n] eqn:Hn; try lia.
  rewrite Z.shiftl_mul_pow2 by lia. rewrite <- Hn.
  assert (Hdiv : Z.div_eucl (Zpos m * 2 ^ (52 + (e - e'))) (Zpos 4503599627370496) =
                 (Zpos m * 2 ^ (e - e'), 0)).
  { pose proof (Z.div_eucl_eq (Zpos m * 2 ^ (52 + (e - e'))) (Zpos 4503599627370496)) as Heq.
    pose proof (Z.mod_pos_bound (Zpos m * 2 ^ (52 + (e - e'))) (Zpos 4503599627370496)) as Hmod.
    unfold Z.modulo in Hmod.
    destruct (Z.div_eucl _ _) as [q r].
    rewrite Z.pow_add_r in Heq by lia. change (2 ^ 52) with (Zpos 4503599627370496) in Heq.
    assert (0 < 2 ^ (e - e')) by (apply Z.pow_pos_nonneg; lia).
    f_equal; nia. }
  rewrite Hdiv. cbn [new_location Z.even new_location_even Z.eqb].
  replace e' with (e - (e - e')) at 2 by lia.
  now apply binary_round_aux_exact.
Qed.

(** ** From doubles to their specification *)

Lemma Prim2SF_not_nan (x : float) :
  is_nan x = false -> Prim2SF x <> S754_nan.
Proof.
  unfold is_nan. rewrite FloatAxioms.eqb_spec. intros H Hnan. rewrite Hnan in H. discriminate.
Qed.

Lemma Prim2SF_not_infinity (x : float) (s : bool) :
  is_infinity x = false -> Prim2SF x <> S754_infinity s.
Proof.
  unfold is_infinity. rewrite FloatAxioms.eqb_spec, abs_spec. intros H Hinf.
  rewrite Hinf in H. discriminate.
Qed.

Lemma mul_one_l (x : float) : (1 * x)%float = x.
Proof.
  apply Prim2SF_inj. rewrite mul_spec. apply SFmul_one_l, Prim2SF_valid.
Qed.

Lemma div_one_r (x : float) : (x / 1)%float = x.
Proof.
  apply Prim2SF_inj. rewrite div_spec. apply SFdiv_one_r, Prim2SF_valid.
Qed.

(** [x] is not [NaN] and not below the positive normal [c]. *)
Lemma not_ltb_at_least (x c : float) (mc : positive) (ec : Z) :
  Prim2SF c = S754_finite false mc ec -> -1074 < ec ->
  is_nan x = false -> (x <? c)%float = false ->
  at_least (2 ^ 52) ec (Prim2SF x).
Proof.
  intros Hc He Hnan Hlt. rewrite ltb_spec, Hc in Hlt.
  apply at_least_weaken with (m := Zpos mc) (e := ec).
  - apply not_SFltb_at_least;
      [apply Prim2SF_valid | assumption | apply Prim2SF_not_nan; assumption | assumption].
  - right. split; [reflexivity|].
    pose proof (Prim2SF_valid c) as Hv. rewrite Hc in Hv.
    apply valid_normal in Hv; [|assumption]. apply digits2_53 in Hv. lia.
Qed.

Lemma div_at_least (x c : float) (mc : positive) (ec k : Z) :
  Prim2SF c = S754_finite false mc ec -> Zpos (digits2_pos mc) = 53 ->
  -1074 <= k - ec - 53 ->
  at_least (2 ^ 52) k (Prim2SF x) ->
  at_least (2 ^ 52) (k - ec - 53) (Prim2SF (x / c)).
Proof.
  intros Hc Hd Hk Hx. rewrite div_spec, Hc.
  destruct (Prim2SF x) as [s|[]| |[] mx ex]; cbn [at_least] in Hx; try tauto; try exact I.
  destruct Hx as [Hdx Hx].
  eapply at_least_weaken; [apply SFdiv_at_least; try assumption; lia|]. lia.
Qed.

Lemma add_one_at_least (y : float) (k : Z) :
  -104 <= k -> at_least (2 ^ 52) k (Prim2SF y) ->
  at_least (2 ^ 52 + 1) (-52) (Prim2SF (1 + y)).
Proof.
  intros Hk Hy. rewrite add_spec. change (Prim2SF 1) with SFone64.
  destruct (Prim2SF y) as [s|[]| |[] my ey]; cbn [at_least] in Hy; try tauto; try exact I.
  destruct Hy as [Hdy Hy]. apply SFadd_one_at_least; [assumption|lia].
Qed.

Lemma mul_at_least (c y : float) (mc : positive) (ec k : Z) :
  Prim2SF c = S754_finite false mc ec -> Zpos (digits2_pos mc) = 53 ->
  -1074 <= ec + k + 52 ->
  at_least (2 ^ 52) k (Prim2SF y) ->
  at_least (2 ^ 52) (ec + k + 52) (Prim2SF (c * y)).
Proof.
  intros Hc Hd Hk Hy. rewrite mul_spec, Hc.
  destruct (Prim2SF y) as [s|[]| |[] my ey]; cbn [at_least] in Hy; try tauto; try exact I.
  destruct Hy as [Hdy Hy].
  eapply at_least_weaken; [apply SFmul_at_least; try assumption; lia|].
  destruct Hy as [Hy|[-> Hy]]; [left; lia|right].
  split; [reflexivity|].
  apply digits2_53 in Hd, Hdy.
  apply Z.div_le_lower_bound; [lia|]. nia.
Qed.

(** A positive normal number grows when multiplied by a number above one. *)
Lemma mul_above_one (p q : float) (mp : positive) (ep : Z) :
  Prim2SF p = S754_finite false mp ep -> Zpos (digits2_pos mp) = 53 ->
  -1074 <= ep ->
  at_least (2 ^ 52 + 1) (-52) (Prim2SF q) ->
  at_least (Zpos mp + 1) ep (Prim2SF (p * q)).
Proof.
  intros Hp Hd He Hq. rewrite mul_spec, Hp.
  destruct (Prim2SF q) as [s|[]| |[] mq eq]; cbn [at_least] in Hq; try tauto; try exact I.
  destruct Hq as [Hdq Hq].
  eapply at_least_weaken; [apply SFmul_at_least; try assumption; lia|].
  destruct Hq as [Hq|[-> Hq]]; [left; lia|right].
  split; [lia|].
  apply digits2_53 in Hd, Hdq.
  apply Z.div_le_lower_bound; [lia|].
  change (2 ^ 52) with 4503599627370496 in *. nia.
Qed.

Lemma ltb_at_least (p y : float) (mp : positive) (ep : Z) :
  Prim2SF p = S754_finite false mp ep ->
  at_least (Zpos mp + 1) ep (Prim2SF y) -> (p <? y)%float = true.
Proof. intros Hp Hy. rewrite ltb_spec, Hp. now apply SFltb_at_least. Qed.

Lemma leb_at_least (x y : float) (m e : Z) :
  -1074 < e -> at_least m e (Prim2SF x) -> (x <=? y)%float = true ->
  at_least m e (Prim2SF y).
Proof.
  intros He Hx Hle. rewrite leb_spec in Hle.
  apply at_least_SFleb with (X := Prim2SF x);
    [apply Prim2SF_valid | assumption | assumption | assumption].
Qed.

(** Subtracting a positive normal number from a larger one leaves a
    positive number. *)
Lemma sub_positive (p y : float) (mp : positive) (ep : Z) :
  Prim2SF p = S754_finite false mp ep -> Zpos (digits2_pos mp) = 53 ->
  at_least (Zpos mp + 1) ep (Prim2SF y) ->
  (0 <? y - p)%float = true.
Proof.
  intros Hp Hd Hy. rewrite ltb_spec, sub_spec, Hp.
  change (Prim2SF 0) with (S754_zero false).
  apply SFltb_zero_positive.
  pose proof (Prim2SF_valid p) as Hv. rewrite Hp in Hv. apply valid_exponent in Hv.
  destruct (Prim2SF y) as [s|[]| |[] my ey]; cbn [at_least] in Hy; try tauto; try exact I.
  destruct Hy as [Hdy Hy]. apply SFsub_positive; try assumption. lia.
Qed.

Lemma leb_at_least_constant (c y : float) (mc : positive) (ec : Z) :
  Prim2SF c = S754_finite false mc ec ->
  at_least (Zpos mc) ec (Prim2SF y) -> (c <=? y)%float = true.
Proof.
  intros Hc Hy. rewrite leb_spec, Hc. unfold SFleb.
  destruct (Prim2SF y) as [s|[]| |[] my ey]; cbn [at_least] in Hy; try tauto;
    try reflexivity.
  cbn [SFcompare]. destruct Hy as [_ [Hy|[-> Hy]]].
  - apply Z.compare_lt_iff in Hy. now rewrite Hy.
  - rewrite Z.compare_refl, Pos.compare_cont_spec. cbn.
    destruct (Pos.compare_spec mc my); try reflexivity. lia.
Qed.

Lemma ltb_infinity (y : float) : (infinity <? y)%float = false.
Proof.
  rewrite ltb_spec. change (Prim2SF infinity) with (S754_infinity false).
  destruct (Prim2SF y) as [s|[]| |s m e]; reflexivity.
Qed.

End Binary64.

(** The periods per year, one frequency at a time: the table has an entry
    under each name and none of its values is falsy, so the [|| 1] never
    applies. *)
Lemma periods_per_year_table (f : CompoundingFrequency) :
  periods_per_year f =
  match f with
  | Annually => 1
  | SemiAnnually => 2
  | Quarterly => 4
  | Monthly => 12
  end.
Proof. destruct f; reflexivity. Qed.

Section Properties.

Variable Math_pow : number -> number -> number.

(** *** What [onSubmit] does before and after the wait *)

Lemma onSubmit_begin_spec (data : FormValues) (s : State) :
  onSubmit_begin Math_pow data s =
  (Normal (explanation_request data (calculate Math_pow data)),
   mkState (Some (calculate Math_pow data)) None true (console s)).
Proof. reflexivity. Qed.

(** The three ways the wait can end. *)
Lemma onSubmit_resume_explained (o : Flow.ExplainFDResultsOutput) (s : State) :
  onSubmit_resume (Normal (Some o)) s =
  (Normal tt, mkState (results s) (Some (Flow.explanation o)) false (console s)).
Proof. reflexivity. Qed.

Lemma onSubmit_resume_null (s : State) :
  onSubmit_resume (Normal None) s =
  (Normal tt,
   mkState (results s) (Some fallback_explanation) false
     (console s ++ [("AI explanation failed:", TypeError)])).
Proof. reflexivity. Qed.

Lemma onSubmit_resume_rejected (e : Error) (s : State) :
  onSubmit_resume (Throw e) s =
  (Normal tt,
   mkState (results s) (Some fallback_explanation) false
     (console s ++ [("AI explanation failed:", e)])).
Proof. reflexivity. Qed.

Lemma onSubmit_resume_results (g : Flow.Generation) (s : State) :
  results (snd (onSubmit_resume g s)) = results s.
Proof. destruct g as [[o|]|e]; reflexivity. Qed.

Lemma onSubmit_resume_isLoading (g : Flow.Generation) (s : State) :
  isLoading (snd (onSubmit_resume g s)) = false.
Proof. destruct g as [[o|]|e]; reflexivity. Qed.

(** What the promise of [explainFDResults] settles with: a request that
    does not fit the input schema is rejected whatever the prompt would
    answer, a [null] output is rejected too, and anything else is the
    prompt's own outcome. *)
Lemma explainFDResults_spec
    (prompt : Flow.ExplainFDResultsInput -> Flow.Generation)
    (input : Flow.ExplainFDResultsInput) :
  Flow.explainFDResults prompt input =
  if Flow.valid_input input then
    match prompt input with
    | Normal (Some o) => Normal (Some o)
    | Normal None => Throw ValidationError
    | Throw e => Throw e
    end
  else Throw ValidationError.
Proof.
  unfold Flow.explainFDResults, Flow.explainFDResultsFlow.
  destruct (Flow.valid_input input); [|reflexivity].
  destruct (prompt input) as [[o|]|e]; reflexivity.
Qed.

(** A failure of the prompt is a rejection of the call. *)
Lemma explainFDResults_failed
    (prompt : Flow.ExplainFDResultsInput -> Flow.Generation)
    (input : Flow.ExplainFDResultsInput) :
  failed (prompt input) = true ->
  exists e : Error, Flow.explainFDResults prompt input = Throw e.
Proof.
  intros Hfail. rewrite explainFDResults_spec.
  destruct (Flow.valid_input input); [|now exists ValidationError].
  destruct (prompt input) as [[o|]|e];
    [discriminate | now exists ValidationError | now exists e].
Qed.

(** *** The calculation *)

(** C1: the periods per year are 1, 2, 4 and 12 for Annually, Semi-annually,
    Quarterly and Monthly, the maturity amount is
    [principal * Math.pow(1 + (interestRate / 100) / n, n * tenure)] and the
    total interest is the maturity amount minus the principal, every
    operation being the one on doubles. *)
Theorem calculate_formula (data : FormValues) :
  let n :=
    match compoundingFrequency data with
    | Annually => 1
    | SemiAnnually => 2
    | Quarterly => 4
    | Monthly => 12
    end in
  periods_per_year (compoundingFrequency data) = n /\
  maturityAmount (calculate Math_pow data) =
    principal data * Math_pow (1 + (interestRate data / 100) / n) (n * tenure data) /\
  totalInterest (calculate Math_pow data) = maturityAmount (calculate Math_pow data) - principal data.
Proof.
  cbv zeta. rewrite <- periods_per_year_table.
  repeat split.
Qed.

(** C2: the results [onSubmit] stores always satisfy
    [totalInterest = maturityAmount - principal], the subtraction being the
    one on doubles that the script performs. *)
Theorem totalInterest_identity (data : FormValues) (s : State) :
  exists r : Results,
    results (snd (onSubmit_begin Math_pow data s)) = Some r /\
    r = calculate Math_pow data /\
    totalInterest r = maturityAmount r - principal data.
Proof.
  exists (calculate Math_pow data). rewrite onSubmit_begin_spec. repeat split.
Qed.

(** C6: the results depend on the submitted values alone: whatever the state
    before, whatever the explanation service answers, two runs of [onSubmit]
    on the same values leave the same results, namely [calculate data]. *)
Theorem calculation_deterministic
    (data : FormValues) (s1 s2 : State)
    (prompt1 prompt2 : Flow.ExplainFDResultsInput -> Flow.Generation) :
  results (snd (onSubmit Math_pow prompt1 data s1)) = Some (calculate Math_pow data) /\
  results (snd (onSubmit Math_pow prompt1 data s1)) = results (snd (onSubmit Math_pow prompt2 data s2)).
Proof.
  assert (H : forall prompt s, results (snd (onSubmit Math_pow prompt data s)) = Some (calculate Math_pow data)).
  { intros prompt s. unfold onSubmit, bind.
    rewrite onSubmit_begin_spec.
    rewrite onSubmit_resume_results. reflexivity. }
  split; [apply H | now rewrite !H].
Qed.

(** *** Validation *)

Lemma number_schema_success (msg : string) (checks : list Zod.Check) (p : string) (x : number) :
  Zod.success (Zod.number_schema msg checks p x) =
  negb (isNaN x) && forallb (fun c => match Zod.run_check p x c with [] => true | _ => false end) checks.
Proof.
  unfold Zod.number_schema. destruct (isNaN x); [reflexivity|]. simpl.
  induction checks as [|c checks IH]; [reflexivity|]. simpl.
  destruct (Zod.run_check p x c); [exact IH | reflexivity].
Qed.

Lemma principal_schema_success (p : string) (x : number) :
  Zod.success (principal_schema p x) = negb (isNaN x) && negb (x <? 1).
Proof.
  unfold principal_schema. rewrite number_schema_success. simpl.
  destruct (x <? 1); reflexivity.
Qed.

Lemma tenure_schema_success (p : string) (x : number) :
  Zod.success (tenure_schema p x) = negb (isNaN x) && negb (x <? 1).
Proof.
  unfold tenure_schema. rewrite number_schema_success. simpl.
  destruct (x <? 1); reflexivity.
Qed.

Lemma interestRate_schema_success (p : string) (x : number) :
  Zod.success (interestRate_schema p x) =
  negb (isNaN x) && (negb (x <? 0.1) && negb (100 <? x)).
Proof.
  unfold interestRate_schema. rewrite number_schema_success. simpl.
  destruct (x <? 0.1), (100 <? x); reflexivity.
Qed.

Lemma number_schema_value (msg : string) (checks : list Zod.Check) (p : string) (x y : number) :
  Zod.number_schema msg checks p x = inr y -> y = x.
Proof.
  unfold Zod.number_schema. destruct (isNaN x); [discriminate|].
  destruct (flat_map _ _); [|discriminate]. now intros [= <-].
Qed.

Lemma enum_schema_success (p s : string) :
  Zod.success (Zod.enum_schema p s) = true <->
  In s (map frequency_name frequency_options).
Proof.
  unfold Zod.enum_schema, frequency_options.
  cbn [find frequency_name map In].
  destruct (String.eqb_spec "Annually" s); [cbn; tauto|].
  destruct (String.eqb_spec "Semi-annually" s); [cbn; tauto|].
  destruct (String.eqb_spec "Quarterly" s); [cbn; tauto|].
  destruct (String.eqb_spec "Monthly" s); [cbn; tauto|].
  cbn. intuition discriminate.
Qed.

(** The schema accepts exactly when each field parses. *)
Lemma formSchema_success (raw : RawValues) :
  Zod.success (formSchema raw) =
  Zod.success (principal_schema "principal" (raw_principal raw)) &&
  Zod.success (tenure_schema "tenure" (raw_tenure raw)) &&
  Zod.success (interestRate_schema "interestRate" (raw_interestRate raw)) &&
  Zod.success (Zod.enum_schema "compoundingFrequency" (raw_compoundingFrequency raw)).
Proof.
  unfold formSchema.
  destruct (principal_schema _ _), (tenure_schema _ _), (interestRate_schema _ _),
    (Zod.enum_schema _ _); reflexivity.
Qed.

(** What the schema hands on is what it was given. *)
Lemma formSchema_value (raw : RawValues) (data : FormValues) :
  formSchema raw = inr data ->
  principal data = raw_principal raw /\
  tenure data = raw_tenure raw /\
  interestRate data = raw_interestRate raw /\
  frequency_name (compoundingFrequency data) = raw_compoundingFrequency raw.
Proof.
  unfold formSchema.
  destruct (principal_schema _ _) as [|p'] eqn:Hp; [discriminate|].
  destruct (tenure_schema _ _) as [|t'] eqn:Ht; [discriminate|].
  destruct (interestRate_schema _ _) as [|r'] eqn:Hr; [discriminate|].
  destruct (Zod.enum_schema _ _) as [|f'] eqn:Hf; [discriminate|].
  intros [= <-]. simpl.
  apply number_schema_value in Hp, Ht, Hr.
  repeat split; try assumption.
  unfold Zod.enum_schema in Hf.
  destruct (find _ _) as [f|] eqn:Hfind; [|discriminate].
  inversion Hf; subst f'. apply find_some in Hfind. now apply String.eqb_eq.
Qed.

(** A submission the schema turns down changes nothing but the form's
    errors: no state cell is written and no request is made. *)
Lemma handleSubmit_rejected (raw : RawValues) (p : Page) :
  rejected raw ->
  component (handleSubmit Math_pow raw p) = component p /\
  pending (handleSubmit Math_pow raw p) = pending p /\
  errors (handleSubmit Math_pow raw p) = Zod.issues (formSchema raw).
Proof.
  unfold rejected, handleSubmit. destruct (formSchema raw); [|discriminate].
  intros _. repeat split.
Qed.

(** A rejection always comes with at least one issue. *)
Lemma number_schema_issues (msg : string) (checks : list Zod.Check) (p : string) (x : number) :
  Zod.success (Zod.number_schema msg checks p x) = false ->
  Zod.issues (Zod.number_schema msg checks p x) <> [].
Proof.
  unfold Zod.number_schema. destruct (isNaN x); [discriminate|].
  destruct (flat_map _ _); discriminate.
Qed.

Lemma rejected_issues (raw : RawValues) :
  rejected raw -> Zod.issues (formSchema raw) <> [].
Proof.
  unfold rejected, formSchema, principal_schema, tenure_schema, interestRate_schema.
  pose proof (number_schema_issues "Please enter a valid number."
                [Zod.min 1 "Principal must be at least 1."]
                "principal" (raw_principal raw)) as Ip.
  pose proof (number_schema_issues "Please enter a valid number."
                [Zod.min 1 "Tenure must be at least 1 year."]
                "tenure" (raw_tenure raw)) as It.
  pose proof (number_schema_issues "Please enter a valid number."
                [Zod.min 0.1 "Interest rate must be at least 0.1%.";
                 Zod.max 100 "Interest rate cannot exceed 100%."]
                "interestRate" (raw_interestRate raw)) as Ir.
  destruct (Zod.number_schema _ _ "principal" _) as [lp|];
    [| destruct (Zod.number_schema _ _ "tenure" _) as [lt|];
       [| destruct (Zod.number_schema _ _ "interestRate" _) as [lr|];
          [| destruct (Zod.enum_schema _ _) as [lf|] eqn:Hf; [|discriminate] ] ] ];
    intros _; cbn [Zod.issues app] in *; intros Happ.
  - apply app_eq_nil in Happ as [-> _]. now apply Ip.
  - apply app_eq_nil in Happ as [-> _]. now apply It.
  - apply app_eq_nil in Happ as [-> _]. now apply Ir.
  - subst lf. unfold Zod.enum_schema in Hf. destruct (find _ _); discriminate.
Qed.

(** Every way the schema can reject: a field that is not a number, a
    frequency that is not among the options, or a number out of range. *)
Lemma rejected_iff (raw : RawValues) :
  rejected raw <->
  (isNaN (raw_principal raw) = true \/ isNaN (raw_tenure raw) = true \/
   isNaN (raw_interestRate raw) = true \/
   ~ In (raw_compoundingFrequency raw) (map frequency_name frequency_options) \/
   out_of_range raw).
Proof.
  destruct raw as [p t r f]. unfold rejected, out_of_range, lt_number.
  cbn [raw_principal raw_tenure raw_interestRate raw_compoundingFrequency].
  rewrite formSchema_success.
  cbn [raw_principal raw_tenure raw_interestRate raw_compoundingFrequency].
  rewrite principal_schema_success, tenure_schema_success, interestRate_schema_success.
  pose proof (enum_schema_success "compoundingFrequency" f) as Hf.
  destruct (Zod.success (Zod.enum_schema "compoundingFrequency" f)).
  - assert (Hin : In f (map frequency_name frequency_options)) by now apply Hf.
    destruct (isNaN p), (isNaN t), (isNaN r), (p <? 1), (t <? 1), (r <? 0.1), (100 <? r);
      cbn; intuition discriminate.
  - assert (Hout : ~ In f (map frequency_name frequency_options)).
    { intros Hin. apply Hf in Hin. discriminate. }
    rewrite andb_false_r. tauto.
Qed.

(** C3: on inputs of the right kinds (three numbers, one of the four
    frequencies) the schema rejects exactly when the principal is below 1,
    the tenure is below 1, or the rate is below 0.1 or above 100, and on
    any input exactly when a field is of the wrong kind or out of range; a
    rejected submission never reaches the calculation (neither the state
    nor the pending requests change) and leaves its issues as the form's
    errors, while an accepted one stores the calculated results; and a
    principal of 0, a tenure of 0, a rate of 0 and a rate of 101 are each
    rejected whatever the other fields. *)
Theorem validation_rejects_out_of_range :
  (forall raw : RawValues,
     well_formed raw -> rejected raw <-> out_of_range raw) /\
  (forall raw : RawValues,
     rejected raw <-> ~ well_formed raw \/ out_of_range raw) /\
  (forall (raw : RawValues) (p : Page),
     rejected raw ->
     component (step Math_pow p (Submit raw)) = component p /\
     pending (step Math_pow p (Submit raw)) = pending p /\
     (submit_disabled (render (component p)) = false ->
      errors (step Math_pow p (Submit raw)) = Zod.issues (formSchema raw) /\
      errors (step Math_pow p (Submit raw)) <> [])) /\
  (forall (raw : RawValues) (data : FormValues) (p : Page),
     formSchema raw = inr data ->
     submit_disabled (render (component p)) = false ->
     results (component (step Math_pow p (Submit raw))) = Some (calculate Math_pow data)) /\
  (forall t r f, rejected (mkRawValues 0 t r f)) /\
  (forall p r f, rejected (mkRawValues p 0 r f)) /\
  (forall p t f, rejected (mkRawValues p t 0 f)) /\
  (forall p t f, rejected (mkRawValues p t 101 f)).
Proof.
  split; [|split; [|split; [|split]]].
  - intros raw (Hp & Ht & Hr & Hf). rewrite rejected_iff, Hp, Ht, Hr.
    intuition discriminate.
  - intros raw. rewrite rejected_iff. unfold well_formed.
    destruct (isNaN (raw_principal raw)), (isNaN (raw_tenure raw)),
      (isNaN (raw_interestRate raw)); intuition discriminate.
  - intros raw p Hrej. unfold step.
    destruct (handleSubmit_rejected raw p Hrej) as (H1 & H2 & H3).
    destruct (submit_disabled (render (component p))).
    + repeat split; discriminate.
    + repeat split; try assumption. rewrite H3. now apply rejected_issues.
  - intros raw data p Hparse Henabled. unfold step. rewrite Henabled.
    unfold handleSubmit. rewrite Hparse, onSubmit_begin_spec. reflexivity.
  - unfold rejected. repeat split; intros;
      rewrite formSchema_success; simpl;
      rewrite ?principal_schema_success, ?tenure_schema_success, ?interestRate_schema_success;
      simpl; rewrite ?andb_false_r; reflexivity.
Qed.

(** *** The explanation request and its outcome *)

(** Once loading is over, a non-empty explanation is shown as it is, in
    place of the skeleton. *)
Lemma render_explanation (r : option Results) (e : string) (c : list (string * Error)) :
  truthy_string e = true ->
  shown_explanation (render (mkState r (Some e) false c)) = Some e /\
  shown_skeleton (render (mkState r (Some e) false c)) = false.
Proof.
  intros He. unfold render. cbn [isLoading explanation results truthy_explanation].
  rewrite He. destruct r; split; reflexivity.
Qed.

(** C4: when the call to the explanation service fails (it throws, whatever
    the error, or comes back without an output), [onSubmit] completes
    normally, the explanation shown is the fixed fallback text, and the
    error ends up on the console only. *)
Theorem explanation_failure_fallback
    (prompt : Flow.ExplainFDResultsInput -> Flow.Generation)
    (request : Flow.ExplainFDResultsInput) (s : State) :
  failed (prompt request) = true ->
  let r := onSubmit_resume (Flow.explainFDResults prompt request) s in
  fst r = Normal tt /\
  explanation (snd r) = Some fallback_explanation /\
  shown_explanation (render (snd r)) = Some fallback_explanation /\
  shown_skeleton (render (snd r)) = false /\
  exists e : Error, console (snd r) = (console s ++ [("AI explanation failed:", e)])%list.
Proof.
  intros Hfail. destruct (explainFDResults_failed prompt request Hfail) as [e ->].
  cbv zeta. rewrite onSubmit_resume_rejected. cbn [fst snd explanation console].
  do 2 (split; [reflexivity|]).
  split; [|split]; [now apply render_explanation..|]. now exists e.
Qed.

(** C5: the results are set before the call and nothing after the call
    touches them: resuming leaves [results] as it was, and after a whole run
    of [onSubmit] the results of the calculation are stored and shown,
    whether the explanation arrived or not. *)
Theorem results_independent_of_explanation
    (prompt : Flow.ExplainFDResultsInput -> Flow.Generation)
    (data : FormValues) (s : State) :
  (forall (g : Flow.Generation) (s0 : State),
     results (snd (onSubmit_resume g s0)) = results s0) /\
  let s' := snd (onSubmit Math_pow prompt data s) in
  results s' = Some (calculate Math_pow data) /\
  shown_results (render s') = Some (calculate Math_pow data).
Proof.
  split; [exact onSubmit_resume_results|]. cbv zeta.
  unfold onSubmit, bind. rewrite onSubmit_begin_spec.
  set (g := Flow.explainFDResults prompt _).
  set (s1 := mkState _ _ _ _).
  pose proof (onSubmit_resume_results g s1) as Hres.
  pose proof (onSubmit_resume_isLoading g s1) as Hload.
  split; [exact Hres|].
  unfold render. rewrite Hload, Hres. reflexivity.
Qed.

(** C8: the request [onSubmit] sends is the record of exactly these six
    values: the four submitted ones and the two computed ones, which are
    also the results it stores; a submission the schema accepted adds this
    one request to the pending calls; the flow hands a request that fits
    its input schema to the prompt as it is and returns the prompt's
    answer, and rejects any other request whatever the prompt would answer;
    what the call is fulfilled with is never [null] but always the prompt's
    structured answer to this very request; and of that answer, the one
    string field [explanation] is what gets shown. *)
Theorem explanation_request_verbatim (data : FormValues) (s : State) :
  fst (onSubmit_begin Math_pow data s) =
    Normal (Flow.mkInput (principal data) (tenure data) (interestRate data)
              (compoundingFrequency data)
              (maturityAmount (calculate Math_pow data))
              (totalInterest (calculate Math_pow data))) /\
  results (snd (onSubmit_begin Math_pow data s)) = Some (calculate Math_pow data) /\
  (forall (raw : RawValues) (p : Page),
     formSchema raw = inr data ->
     submit_disabled (render (component p)) = false ->
     pending (step Math_pow p (Submit raw)) =
       (next_call p, explanation_request data (calculate Math_pow data)) :: pending p /\
     principal data = raw_principal raw /\
     tenure data = raw_tenure raw /\
     interestRate data = raw_interestRate raw /\
     frequency_name (compoundingFrequency data) = raw_compoundingFrequency raw) /\
  (forall (prompt : Flow.ExplainFDResultsInput -> Flow.Generation)
          (request : Flow.ExplainFDResultsInput),
     (forall o : Flow.ExplainFDResultsOutput,
        Flow.valid_input request = true -> prompt request = Normal (Some o) ->
        Flow.explainFDResults prompt request = Normal (Some o)) /\
     (Flow.valid_input request = false ->
      Flow.explainFDResults prompt request = Throw ValidationError) /\
     (forall output : option Flow.ExplainFDResultsOutput,
        Flow.explainFDResults prompt request = Normal output ->
        Flow.valid_input request = true /\
        exists o : Flow.ExplainFDResultsOutput,
          output = Some o /\ prompt request = Normal (Some o))) /\
  (forall (o : Flow.ExplainFDResultsOutput) (s0 : State),
     explanation (snd (onSubmit_resume (Normal (Some o)) s0)) = Some (Flow.explanation o)).
Proof.
  rewrite onSubmit_begin_spec.
  split; [reflexivity|]. split; [reflexivity|]. split; [|split].
  - intros raw p Hparse Henabled. split.
    + unfold step. rewrite Henabled. unfold handleSubmit. rewrite Hparse.
      rewrite onSubmit_begin_spec. reflexivity.
    + now apply formSchema_value in Hparse.
  - intros prompt request. rewrite explainFDResults_spec. split; [|split].
    + intros o -> ->. reflexivity.
    + intros ->. reflexivity.
    + intros output. destruct (Flow.valid_input request); [|discriminate].
      destruct (prompt request) as [[o|]|e]; try discriminate.
      intros [= <-]. split; [reflexivity|]. now exists o.
  - intros o s0. reflexivity.
Qed.

(** *** One submission at a time *)

Lemma page_invariant_initial : page_invariant initial_page.
Proof. left. split; reflexivity. Qed.

Lemma page_invariant_step (p : Page) (ev : Event) :
  page_invariant p -> page_invariant (step Math_pow p ev).
Proof.
  intros Hinv. destruct ev as [raw|call reply]; unfold step.
  - cbn [render submit_disabled].
    destruct Hinv as [[Hload Hpend]|[Hload Hrest]]; rewrite Hload.
    + unfold handleSubmit. destruct (formSchema raw) as [issues|data].
      * left. now split.
      * rewrite onSubmit_begin_spec. right. split; [reflexivity|].
        exists (next_call p), (explanation_request data (calculate Math_pow data)).
        cbn [pending component results]. rewrite Hpend. split; reflexivity.
    + right. now split.
  - destruct (lookup_call call (pending p)) as [request|] eqn:Hlook; [|exact Hinv].
    destruct Hinv as [[Hload Hpend]|[Hload (c & rq & Hpend & Hres)]].
    + rewrite Hpend in Hlook. discriminate.
    + left. cbn [component pending]. split; [apply onSubmit_resume_isLoading|].
      rewrite Hpend in Hlook |- *. cbn in Hlook |- *.
      destruct (Nat.eqb c call); [reflexivity | discriminate].
Qed.

Lemma page_invariant_run (evs : list Event) (p : Page) :
  page_invariant p -> page_invariant (run Math_pow p evs).
Proof.
  revert p. induction evs as [|ev evs IH]; intros p Hinv; [exact Hinv|].
  apply IH. now apply page_invariant_step.
Qed.

(** C9: on every page reachable from the initial one, at most one call is
    pending; while one is pending a click on submit changes nothing; and the
    pending call is the one the stored results belong to, so when it settles
    it finds the results of its own submission, leaves them as they are,
    and no call remains. *)
Theorem one_submission_in_flight (evs : list Event) :
  let p := run Math_pow initial_page evs in
  (List.length (pending p) <= 1)%nat /\
  (pending p <> [] -> forall raw : RawValues, step Math_pow p (Submit raw) = p) /\
  (forall (call : nat) (request : Flow.ExplainFDResultsInput) (reply : Flow.Generation),
     lookup_call call (pending p) = Some request ->
     results (component p) =
       Some (mkResults (Flow.maturityAmount request) (Flow.totalInterest request)) /\
     results (component (step Math_pow p (Settle call reply))) = results (component p) /\
     pending (step Math_pow p (Settle call reply)) = []).
Proof.
  cbv zeta. set (p := run Math_pow initial_page evs).
  assert (Hinv : page_invariant p) by (apply page_invariant_run, page_invariant_initial).
  destruct Hinv as [[Hload Hpend]|[Hload (c & rq & Hpend & Hres)]].
  - rewrite Hpend. repeat split; cbn; try lia; try congruence; discriminate.
  - split; [rewrite Hpend; cbn; lia|]. split.
    + intros _ raw. unfold step. cbn [render submit_disabled]. now rewrite Hload.
    + intros call request reply Hlook.
      rewrite Hpend in Hlook. cbn in Hlook.
      destruct (Nat.eqb c call) eqn:Hc; [|discriminate]. injection Hlook as <-.
      split; [exact Hres|].
      unfold step. rewrite Hpend. cbn [lookup_call]. rewrite Hc.
      cbn [component pending]. split; [apply onSubmit_resume_results|].
      cbn. now rewrite Hc.
Qed.

(** *** Magnitudes *)

(** What the schema has checked of values it accepted. *)
Lemma accepted_fields (data : FormValues) :
  accepted data ->
  (isNaN (principal data) = false /\ (principal data <? 1) = false) /\
  (isNaN (tenure data) = false /\ (tenure data <? 1) = false) /\
  (isNaN (interestRate data) = false /\
   (interestRate data <? 0.1) = false /\ (100 <? interestRate data) = false).
Proof.
  unfold accepted. rewrite formSchema_success. cbn [to_raw raw_principal raw_tenure
    raw_interestRate raw_compoundingFrequency].
  rewrite principal_schema_success, tenure_schema_success, interestRate_schema_success.
  intros H. repeat (apply andb_prop in H as [H ?]).
  repeat match goal with
         | H : negb _ = true |- _ => apply negb_true_iff in H
         | H : _ && _ = true |- _ => apply andb_prop in H as [? ?]
         end.
  repeat split; assumption.
Qed.

(** For accepted values the base handed to [Math.pow] is above one: the
    rate is at least 2^-4, so the rate per period is at least 2^-15, and
    adding it to one changes the sum. *)
Lemma growth_base_above_one (data : FormValues) :
  accepted data ->
  at_least (2 ^ 52 + 1) (-52) (Prim2SF (growth_base data)).
Proof.
  intros Hacc. destruct (accepted_fields data Hacc) as (_ & _ & Hnan & Hmin & _).
  unfold growth_base.
  assert (Hr : at_least (2 ^ 52) (-56) (Prim2SF (interestRate data))).
  { apply (Binary64.not_ltb_at_least _ 0.1 7205759403792794 (-56));
      [reflexivity | lia | assumption | assumption]. }
  assert (Hrate : at_least (2 ^ 52) (-63) (Prim2SF (interestRate data / 100))).
  { apply (Binary64.div_at_least _ 100 7036874417766400 (-46) (-56));
      [reflexivity | reflexivity | lia | exact Hr]. }
  rewrite periods_per_year_table.
  destruct (compoundingFrequency data).
  - apply (Binary64.add_one_at_least _ (-64)); [lia|].
    apply (Binary64.div_at_least _ 1 4503599627370496 (-52) (-63));
      [reflexivity | reflexivity | lia | exact Hrate].
  - apply (Binary64.add_one_at_least _ (-65)); [lia|].
    apply (Binary64.div_at_least _ 2 4503599627370496 (-51) (-63));
      [reflexivity | reflexivity | lia | exact Hrate].
  - apply (Binary64.add_one_at_least _ (-66)); [lia|].
    apply (Binary64.div_at_least _ 4 4503599627370496 (-50) (-63));
      [reflexivity | reflexivity | lia | exact Hrate].
  - apply (Binary64.add_one_at_least _ (-67)); [lia|].
    apply (Binary64.div_at_least _ 12 6755399441055744 (-49) (-63));
      [reflexivity | reflexivity | lia | exact Hrate].
Qed.

(** For accepted values both arguments of [Math.pow] are in the range where
    a power is at least its base: the base is above one and the exponent is
    at least one. *)
Lemma growth_arguments (data : FormValues) :
  accepted data ->
  (1 < growth_base data)%number /\ (1 <= growth_exponent data)%number.
Proof.
  intros Hacc. split.
  - apply (Binary64.ltb_at_least 1 _ 4503599627370496 (-52)); [reflexivity|].
    now apply growth_base_above_one.
  - destruct (accepted_fields data Hacc) as (_ & (Hnan & Hmin) & _).
    assert (Ht : at_least (2 ^ 52) (-52) (Prim2SF (tenure data))).
    { apply (Binary64.not_ltb_at_least _ 1 4503599627370496 (-52));
        [reflexivity | lia | assumption | assumption]. }
    apply (Binary64.leb_at_least_constant 1 _ 4503599627370496 (-52)); [reflexivity|].
    unfold growth_exponent. rewrite periods_per_year_table.
    destruct (compoundingFrequency data).
    + eapply Binary64.at_least_weaken;
        [apply (Binary64.mul_at_least 1 _ 4503599627370496 (-52) (-52));
           [reflexivity | reflexivity | lia | exact Ht]|].
      right. split; reflexivity.
    + eapply Binary64.at_least_weaken;
        [apply (Binary64.mul_at_least 2 _ 4503599627370496 (-51) (-52));
           [reflexivity | reflexivity | lia | exact Ht]|].
      left. lia.
    + eapply Binary64.at_least_weaken;
        [apply (Binary64.mul_at_least 4 _ 4503599627370496 (-50) (-52));
           [reflexivity | reflexivity | lia | exact Ht]|].
      left. lia.
    + eapply Binary64.at_least_weaken;
        [apply (Binary64.mul_at_least 12 _ 6755399441055744 (-49) (-52));
           [reflexivity | reflexivity | lia | exact Ht]|].
      left. lia.
Qed.

(** C7: when [Math.pow(x, 1)] is [x], annual compounding over one year
    gives [principal * (1 + interestRate / 100)] as the maturity amount,
    for every principal and rate; for a principal of 100000 at 6.5 the
    doubles computed are exactly 106500 and 6500. *)
Theorem annual_single_year :
  (forall x : number, Math_pow x 1 = x) ->
  (forall p r : number,
     calculate Math_pow (mkFormValues p 1 r Annually) =
     mkResults (p * (1 + r / 100)) (p * (1 + r / 100) - p)) /\
  calculate Math_pow (mkFormValues 100000 1 6.5 Annually) = mkResults 106500 6500.
Proof.
  intros Hpow.
  assert (Hgen : forall p r : number,
             calculate Math_pow (mkFormValues p 1 r Annually) =
             mkResults (p * (1 + r / 100)) (p * (1 + r / 100) - p)).
  { intros p r. unfold calculate.
    cbn [principal tenure interestRate compoundingFrequency].
    rewrite periods_per_year_table.
    change (1 * 1) with 1.
    rewrite Binary64.div_one_r, Hpow. reflexivity. }
  split; [exact Hgen|]. rewrite Hgen. reflexivity.
Qed.

(** C10: for values the schema accepts, with a finite principal, and
    provided [Math.pow] returns at least its base on the arguments it is
    given here (a base above one and an exponent of at least one), the
    maturity amount is strictly above the principal and the total interest
    is strictly positive. *)
Theorem maturity_exceeds_principal (data : FormValues) :
  accepted data ->
  isFinite (principal data) = true ->
  (growth_base data <= Math_pow (growth_base data) (growth_exponent data))%number ->
  (principal data < maturityAmount (calculate Math_pow data))%number /\
  (0 < totalInterest (calculate Math_pow data))%number.
Proof.
  intros Hacc Hfin Hpow.
  destruct (accepted_fields data Hacc) as ((Hnan & Hmin) & _).
  assert (Hp : at_least (2 ^ 52) (-52) (Prim2SF (principal data))).
  { apply (Binary64.not_ltb_at_least _ 1 4503599627370496 (-52));
      [reflexivity | lia | assumption | assumption]. }
  unfold isFinite in Hfin. apply andb_prop in Hfin as [_ Hinf].
  apply negb_true_iff in Hinf.
  pose proof (Binary64.Prim2SF_not_infinity (principal data) false Hinf) as Hni.
  destruct (Prim2SF (principal data)) as [s|[]| |[] mp ep] eqn:Ep;
    cbn [at_least] in Hp; try tauto; try congruence.
  destruct Hp as [Hd Hep].
  assert (Hq : at_least (2 ^ 52 + 1) (-52)
                 (Prim2SF (Math_pow (growth_base data) (growth_exponent data)))).
  { apply (Binary64.leb_at_least (growth_base data)); [lia| |exact Hpow].
    now apply growth_base_above_one. }
  pose proof (Binary64.mul_above_one (principal data) _ mp ep Ep Hd ltac:(lia) Hq) as Hm.
  change (maturityAmount (calculate Math_pow data))
    with (principal data * Math_pow (growth_base data) (growth_exponent data)).
  change (totalInterest (calculate Math_pow data))
    with (principal data * Math_pow (growth_base data) (growth_exponent data)
          - principal data).
  split.
  - now apply (Binary64.ltb_at_least _ _ mp ep).
  - now apply (Binary64.sub_positive _ _ mp ep).
Qed.

End Properties.

(** ** The assumptions are met *)

(** The form's default values are of the right kinds and pass the schema. *)
Example default_values_accepted :
  well_formed (to_raw default_values) /\ accepted default_values.
Proof.
  split; [|vm_compute; reflexivity].
  repeat split; try reflexivity. cbn. tauto.
Qed.

(** Repeated multiplication is exact for the exponent one. *)
Lemma pow_repeated_one (x : number) : pow_repeated x 1 = x.
Proof.
  unfold pow_repeated. change (whole_exponent 1) with (Some 1%positive).
  cbn [Pos.iter]. apply Binary64.mul_one_l.
Qed.

(** The service timing out on the request for the default values. *)
Lemma explanation_failure_fallback_witness :
  failed (Throw Timeout) = true /\
  let r :=
    onSubmit_resume
      (Flow.explainFDResults (fun _ => Throw Timeout)
         (explanation_request default_values (calculate pow_repeated default_values)))
      initial_state in
  fst r = Normal tt /\
  explanation (snd r) = Some fallback_explanation /\
  shown_explanation (render (snd r)) = Some fallback_explanation /\
  shown_skeleton (render (snd r)) = false /\
  exists e : Error, console (snd r) = (console initial_state ++ [("AI explanation failed:", e)])%list.
Proof.
  split; [reflexivity|].
  exact (explanation_failure_fallback (fun _ => Throw Timeout)
           (explanation_request default_values (calculate pow_repeated default_values))
           initial_state eq_refl).
Defined.

(** One year at 6.5 percent, with repeated multiplication for [Math.pow]. *)
Lemma annual_single_year_witness :
  (forall x : number, pow_repeated x 1 = x) /\
  calculate pow_repeated (mkFormValues 100000 1 6.5 Annually) = mkResults 106500 6500.
Proof.
  split; [exact pow_repeated_one|].
  exact (proj2 (annual_single_year pow_repeated pow_repeated_one)).
Defined.

(** Five years at 6.5 percent compounded monthly: sixty multiplications. *)
Lemma maturity_exceeds_principal_witness :
  accepted monthly_values /\
  isFinite (principal monthly_values) = true /\
  (growth_base monthly_values <=
   pow_repeated (growth_base monthly_values) (growth_exponent monthly_values))%number /\
  (principal monthly_values < maturityAmount (calculate pow_repeated monthly_values))%number /\
  (0 < totalInterest (calculate pow_repeated monthly_values))%number.
Proof.
  assert (Ha : accepted monthly_values) by (vm_compute; reflexivity).
  assert (Hf : isFinite (principal monthly_values) = true) by (vm_compute; reflexivity).
  assert (Hp : (growth_base monthly_values <=
                pow_repeated (growth_base monthly_values) (growth_exponent monthly_values))%number)
    by (vm_compute; reflexivity).
  split; [exact Ha|]. split; [exact Hf|]. split; [exact Hp|].
  exact (maturity_exceeds_principal pow_repeated monthly_values Ha Hf Hp).
Defined.

(** * More of the two files *)

(** ** The order of doubles *)

Module DoubleOrder.

Local Open Scope Z_scope.

Lemma SFcompare_antisym (X Y : spec_float) :
  SFcompare X Y = option_map CompOpp (SFcompare Y X).
Proof.
  destruct X as [sx|sx| |sx mx ex], Y as [sy|sy| |sy my ey]; cbn [SFcompare option_map];
    try reflexivity; try (destruct sx; reflexivity); try (destruct sy; reflexivity);
    try (destruct sx, sy; reflexivity).
  rewrite (Z.compare_antisym ey ex), !Pos.compare_cont_spec.
  cbn [Pos.switch_Eq]. rewrite (Pos.compare_antisym my mx).
  destruct sx, sy; try reflexivity;
    destruct (ey ?= ex); cbn [CompOpp]; try reflexivity;
    destruct (my ?= mx)%positive; reflexivity.
Qed.

Lemma SFcompare_refl (X : spec_float) :
  SFcompare X X = match X with S754_nan => None | _ => Some Eq end.
Proof.
  destruct X as [s|s| |s m e]; cbn [SFcompare]; try reflexivity.
  - destruct s; reflexivity.
  - rewrite Z.compare_refl, Pos.compare_cont_refl. destruct s; reflexivity.
Qed.

Lemma SFcompare_None (X Y : spec_float) :
  SFcompare X Y = None <-> X = S754_nan \/ Y = S754_nan.
Proof.
  destruct X as [sx|sx| |sx mx ex], Y as [sy|sy| |sy my ey]; cbn [SFcompare];
    split; intros H; try discriminate; try (destruct H; discriminate); auto.
Qed.

Lemma is_nan_spec (x : float) :
  is_nan x = match Prim2SF x with S754_nan => true | _ => false end.
Proof.
  unfold is_nan. rewrite FloatAxioms.eqb_spec. unfold SFeqb. rewrite SFcompare_refl.
  destruct (Prim2SF x); reflexivity.
Qed.

(** [y <= x] is [not (x < y)] once neither is [NaN]. *)
Lemma leb_not_ltb (x y : float) :
  (y <=? x)%float = negb (is_nan x) && negb (is_nan y) && negb (x <? y)%float.
Proof.
  rewrite leb_spec, ltb_spec, !is_nan_spec. unfold SFleb, SFltb.
  rewrite (SFcompare_antisym (Prim2SF y) (Prim2SF x)).
  destruct (SFcompare (Prim2SF x) (Prim2SF y)) as [c|] eqn:Hc.
  - assert (Hx : Prim2SF x <> S754_nan /\ Prim2SF y <> S754_nan).
    { split; intros Hn; rewrite Hn in Hc;
        [|destruct (Prim2SF x)]; discriminate. }
    destruct Hx as [Hx Hy].
    destruct (Prim2SF x); try congruence; destruct (Prim2SF y); try congruence;
      destruct c; reflexivity.
  - apply SFcompare_None in Hc. cbn [option_map].
    destruct Hc as [-> | ->]; [reflexivity|]. destruct (Prim2SF x); reflexivity.
Qed.

Lemma SFltb_trans (X Y Z : spec_float) :
  SFltb X Y = true -> SFltb Y Z = true -> SFltb X Z = true.
Proof.
  unfold SFltb.
  destruct X as [sx|sx| |sx mx ex], Y as [sy|sy| |sy my ey], Z as [sz|sz| |sz mz ez];
    cbn [SFcompare]; try discriminate;
    repeat match goal with s : bool |- _ => destruct s end;
    try discriminate; try reflexivity; intros H1 H2.
  - destruct (Z.compare_spec ex ey); try discriminate;
      destruct (Z.compare_spec ey ez); try discriminate;
      destruct (Z.compare_spec ex ez); try lia; try reflexivity; subst.
    rewrite Pos.compare_cont_spec in *. cbn [Pos.switch_Eq] in *.
    destruct (Pos.compare_spec mx my); try discriminate;
      destruct (Pos.compare_spec my mz); try discriminate;
      destruct (Pos.compare_spec mx mz); try lia; reflexivity.
  - destruct (Z.compare_spec ex ey); try discriminate;
      destruct (Z.compare_spec ey ez); try discriminate;
      destruct (Z.compare_spec ex ez); try lia; try reflexivity; subst.
    rewrite Pos.compare_cont_spec in *. cbn [Pos.switch_Eq] in *.
    destruct (Pos.compare_spec mx my); try discriminate;
      destruct (Pos.compare_spec my mz); try discriminate;
      destruct (Pos.compare_spec mx mz); try lia; reflexivity.
Qed.

Lemma ltb_trans (x y z : float) :
  (x <? y)%float = true -> (y <? z)%float = true -> (x <? z)%float = true.
Proof. rewrite !ltb_spec. apply SFltb_trans. Qed.

End DoubleOrder.

(** ** The schema, further *)

(** X1: the schema accepts exactly the values with
    [1 <= principal], [1 <= tenure] and [0.1 <= interestRate <= 100], the
    comparisons being those of doubles: the bounds are inclusive, and [NaN],
    which fails every comparison, is never accepted. *)
Theorem accepted_iff_bounds (data : FormValues) :
  accepted data <->
  (1 <= principal data /\ 1 <= tenure data /\
   0.1 <= interestRate data /\ interestRate data <= 100)%number.
Proof.
  unfold accepted, le_number. rewrite formSchema_success.
  cbn [to_raw raw_principal raw_tenure raw_interestRate raw_compoundingFrequency].
  rewrite principal_schema_success, tenure_schema_success, interestRate_schema_success.
  assert (Hf : Zod.success (Zod.enum_schema "compoundingFrequency"
                              (frequency_name (compoundingFrequency data))) = true)
    by (destruct (compoundingFrequency data); reflexivity).
  rewrite Hf, andb_true_r.
  rewrite (DoubleOrder.leb_not_ltb (principal data) 1),
          (DoubleOrder.leb_not_ltb (tenure data) 1),
          (DoubleOrder.leb_not_ltb (interestRate data) 0.1),
          (DoubleOrder.leb_not_ltb 100 (interestRate data)).
  change (is_nan 1) with false. change (is_nan 0.1) with false.
  change (is_nan 100) with false. unfold isNaN. cbn [negb andb].
  rewrite !andb_true_r.
  destruct (is_nan (principal data)), (is_nan (tenure data)),
    (is_nan (interestRate data)), (principal data <? 1), (tenure data <? 1),
    (interestRate data <? 0.1), (100 <? interestRate data); cbn;
    intuition discriminate.
Qed.

Lemma formSchema_issues (raw : RawValues) :
  Zod.issues (formSchema raw) =
  (Zod.issues (principal_schema "principal" (raw_principal raw)) ++
   Zod.issues (tenure_schema "tenure" (raw_tenure raw)) ++
   Zod.issues (interestRate_schema "interestRate" (raw_interestRate raw)) ++
   Zod.issues (Zod.enum_schema "compoundingFrequency" (raw_compoundingFrequency raw)))%list.
Proof.
  unfold formSchema.
  destruct (principal_schema _ _), (tenure_schema _ _), (interestRate_schema _ _),
    (Zod.enum_schema _ _); reflexivity.
Qed.

Lemma run_check_path (p : string) (x : number) (c : Zod.Check) (i : Zod.Issue) :
  In i (Zod.run_check p x c) -> Zod.path i = p.
Proof.
  destruct c as [v msg|v msg]; cbn [Zod.run_check].
  - destruct (x <? v); [intros [<-|[]]; reflexivity | intros []].
  - destruct (v <? x); [intros [<-|[]]; reflexivity | intros []].
Qed.

Lemma number_schema_path (msg : string) (checks : list Zod.Check) (p : string)
    (x : number) (i : Zod.Issue) :
  In i (Zod.issues (Zod.number_schema msg checks p x)) -> Zod.path i = p.
Proof.
  unfold Zod.number_schema. destruct (isNaN x).
  - intros [<-|[]]. reflexivity.
  - destruct (flat_map (Zod.run_check p x) checks) as [|i0 l] eqn:Hl; [intros []|].
    cbn [Zod.issues]. rewrite <- Hl. intros Hin.
    apply in_flat_map in Hin as (c & _ & Hc). now apply run_check_path in Hc.
Qed.

Lemma enum_schema_path (p s : string) (i : Zod.Issue) :
  In i (Zod.issues (Zod.enum_schema p s)) -> Zod.path i = p.
Proof.
  unfold Zod.enum_schema. destruct (find _ _); [intros []|].
  intros [<-|[]]. reflexivity.
Qed.

Lemma filter_path (l : list Zod.Issue) (p q : string) :
  (forall i, In i l -> Zod.path i = p) ->
  filter (fun i => String.eqb (Zod.path i) q) l = if String.eqb p q then l else [].
Proof.
  intros H. induction l as [|i l IH]; [now destruct (String.eqb p q)|].
  cbn [filter]. rewrite (H i (or_introl eq_refl)).
  rewrite IH by (intros j Hj; apply H; now right).
  destruct (String.eqb p q); reflexivity.
Qed.

(** A rate is never both below 0.1 and above 100. *)
Lemma rate_checks_exclusive (x : number) :
  (x <? 0.1) = true -> (100 <? x) = false.
Proof.
  intros H. destruct (100 <? x) eqn:H'; [|reflexivity].
  pose proof (DoubleOrder.ltb_trans 100 x 0.1 H' H) as Habs.
  vm_compute in Habs. discriminate.
Qed.

Lemma principal_schema_one_issue (p : string) (x : number) :
  (List.length (Zod.issues (principal_schema p x)) <= 1)%nat.
Proof.
  unfold principal_schema, Zod.number_schema. destruct (isNaN x); [cbn; lia|].
  cbn [flat_map Zod.run_check]. destruct (x <? 1); cbn; lia.
Qed.

Lemma tenure_schema_one_issue (p : string) (x : number) :
  (List.length (Zod.issues (tenure_schema p x)) <= 1)%nat.
Proof.
  unfold tenure_schema, Zod.number_schema. destruct (isNaN x); [cbn; lia|].
  cbn [flat_map Zod.run_check]. destruct (x <? 1); cbn; lia.
Qed.

Lemma interestRate_schema_one_issue (p : string) (x : number) :
  (List.length (Zod.issues (interestRate_schema p x)) <= 1)%nat.
Proof.
  unfold interestRate_schema, Zod.number_schema. destruct (isNaN x); [cbn; lia|].
  cbn [flat_map Zod.run_check].
  destruct (x <? 0.1) eqn:Hlow.
  - rewrite (rate_checks_exclusive x Hlow). cbn. lia.
  - destruct (100 <? x); cbn; lia.
Qed.

Lemma enum_schema_one_issue (p s : string) :
  (List.length (Zod.issues (Zod.enum_schema p s)) <= 1)%nat.
Proof. unfold Zod.enum_schema. destruct (find _ _); cbn; lia. Qed.

(** X3: the issues of a parse under a field's name are that field's own,
    whatever the other fields hold: a failing field is reported even when
    others fail too, a passing one never is, and no field, and no other
    name, gets more than one issue (a rate is never both too small and too
    big). *)
Theorem issues_per_field (raw : RawValues) :
  issues_at "principal" (formSchema raw) =
    Zod.issues (principal_schema "principal" (raw_principal raw)) /\
  issues_at "tenure" (formSchema raw) =
    Zod.issues (tenure_schema "tenure" (raw_tenure raw)) /\
  issues_at "interestRate" (formSchema raw) =
    Zod.issues (interestRate_schema "interestRate" (raw_interestRate raw)) /\
  issues_at "compoundingFrequency" (formSchema raw) =
    Zod.issues (Zod.enum_schema "compoundingFrequency" (raw_compoundingFrequency raw)) /\
  (forall field : string, (List.length (issues_at field (formSchema raw)) <= 1)%nat).
Proof.
  assert (Hat : forall field,
             issues_at field (formSchema raw) =
             ((if String.eqb "principal" field
               then Zod.issues (principal_schema "principal" (raw_principal raw)) else []) ++
              (if String.eqb "tenure" field
               then Zod.issues (tenure_schema "tenure" (raw_tenure raw)) else []) ++
              (if String.eqb "interestRate" field
               then Zod.issues (interestRate_schema "interestRate" (raw_interestRate raw))
               else []) ++
              (if String.eqb "compoundingFrequency" field
               then Zod.issues (Zod.enum_schema "compoundingFrequency"
                                  (raw_compoundingFrequency raw)) else []))%list).
  { intros field. unfold issues_at. rewrite formSchema_issues, !filter_app.
    rewrite (filter_path _ "principal" field) by apply number_schema_path.
    rewrite (filter_path _ "tenure" field) by apply number_schema_path.
    rewrite (filter_path _ "interestRate" field) by apply number_schema_path.
    rewrite (filter_path _ "compoundingFrequency" field) by apply enum_schema_path.
    reflexivity. }
  repeat split.
  - rewrite Hat. cbn. now rewrite !app_nil_r.
  - rewrite Hat. cbn. now rewrite !app_nil_r.
  - rewrite Hat. cbn. now rewrite !app_nil_r.
  - rewrite Hat. cbn. reflexivity.
  - intros field. rewrite Hat.
    pose proof (principal_schema_one_issue "principal" (raw_principal raw)).
    pose proof (tenure_schema_one_issue "tenure" (raw_tenure raw)).
    pose proof (interestRate_schema_one_issue "interestRate" (raw_interestRate raw)).
    pose proof (enum_schema_one_issue "compoundingFrequency" (raw_compoundingFrequency raw)).
    destruct (String.eqb_spec "principal" field) as [<-|];
      [cbn; rewrite !app_nil_r; assumption|].
    destruct (String.eqb_spec "tenure" field) as [<-|];
      [cbn; rewrite !app_nil_r; assumption|].
    destruct (String.eqb_spec "interestRate" field) as [<-|];
      [cbn; rewrite !app_nil_r; assumption|].
    destruct (String.eqb_spec "compoundingFrequency" field) as [<-|];
      [cbn; assumption|].
    cbn. lia.
Qed.

(** ** The four lists of frequencies *)

Lemma in_four (a b c d s : string) :
  In s [a; b; c; d] <->
  (String.eqb a s || String.eqb b s || String.eqb c s || String.eqb d s) = true.
Proof.
  cbn [In].
  destruct (String.eqb_spec a s), (String.eqb_spec b s), (String.eqb_spec c s),
    (String.eqb_spec d s); cbn; intuition congruence.
Qed.

(** X4: the frequencies are written out four times (the select's items,
    the form schema's enum, the keys of the periods table, the flow's enum)
    and the four agree: a string is offered by the select exactly when the
    form schema accepts it; a frequency the form schema accepted is the
    string it was given, and the table has under that name a period count
    of its own that is not falsy, so [|| 1] never replaces it; and a string
    is offered by the select exactly when it is an option of the flow's
    enum. *)
Theorem frequency_options_agree (s : string) :
  (In s select_items <->
   Zod.success (Zod.enum_schema "compoundingFrequency" s) = true) /\
  (forall f : CompoundingFrequency,
     Zod.enum_schema "compoundingFrequency" s = inr f ->
     frequency_name f = s /\
     exists n : number,
       get periods_table s = Some n /\ falsy n = false /\ periods_per_year f = n) /\
  (In s select_items <->
   flow_frequency_accepted s = true).
Proof.
  split; [|split].
  - unfold select_items. rewrite in_four.
    rewrite enum_schema_success. unfold frequency_options.
    cbn [map frequency_name]. now rewrite in_four.
  - intros f Hf. unfold Zod.enum_schema in Hf.
    destruct (find _ _) as [f'|] eqn:Hfind; [|discriminate].
    inversion Hf; subst f'. apply find_some in Hfind as [_ Hname].
    apply String.eqb_eq in Hname. subst s.
    split; [reflexivity|].
    destruct f; eexists; (split; [reflexivity|]); split; reflexivity.
  - unfold select_items. rewrite in_four.
    unfold flow_frequency_accepted, flow_frequency_options. cbn [existsb].
    rewrite (String.eqb_sym s "Annually"), (String.eqb_sym s "Semi-annually"),
      (String.eqb_sym s "Quarterly"), (String.eqb_sym s "Monthly"), orb_false_r.
    rewrite !orb_assoc. reflexivity.
Qed.

(** ** The component, further *)

Section Coverage.

Variable Math_pow : number -> number -> number.

Lemma onSubmit_resume_state (reply : Flow.Generation) (s : State) :
  exists c : list (string * Error),
    onSubmit_resume reply s =
    (Normal tt, mkState (results s) (Some (explanation_for reply)) false c).
Proof. destruct reply as [[o|]|e]; eexists; reflexivity. Qed.

(** X5: a whole run of [onSubmit] never throws and leaves a state that owes
    nothing to the one before except the console: the results of this
    calculation, loading over, and an explanation.  When the request fits
    the flow's input schema and the prompt answers, that is the answer's
    text and the console is as it was; when the request does not fit (a
    maturity amount that overflowed, say) it is the fallback text whatever
    the prompt would answer; when the prompt fails or has no output it is
    the fallback text too; and each failure adds its one line to the
    console. *)
Theorem onSubmit_outcome
    (prompt : Flow.ExplainFDResultsInput -> Flow.Generation)
    (data : FormValues) (s : State) :
  let r := calculate Math_pow data in
  let request := explanation_request data r in
  let failure (e : Error) :=
    mkState (Some r) (Some fallback_explanation) false
      (console s ++ [("AI explanation failed:", e)]) in
  onSubmit Math_pow prompt data s =
  (Normal tt,
   if Flow.valid_input request then
     match prompt request with
     | Normal (Some o) => mkState (Some r) (Some (Flow.explanation o)) false (console s)
     | Normal None => failure ValidationError
     | Throw e => failure e
     end
   else failure ValidationError) /\
  (isFinite (maturityAmount r) = false ->
   explanation (snd (onSubmit Math_pow prompt data s)) = Some fallback_explanation).
Proof.
  cbv zeta.
  assert (H : onSubmit Math_pow prompt data s =
    (Normal tt,
     if Flow.valid_input (explanation_request data (calculate Math_pow data)) then
       match prompt (explanation_request data (calculate Math_pow data)) with
       | Normal (Some o) =>
           mkState (Some (calculate Math_pow data)) (Some (Flow.explanation o)) false
             (console s)
       | Normal None =>
           mkState (Some (calculate Math_pow data)) (Some fallback_explanation) false
             (console s ++ [("AI explanation failed:", ValidationError)])
       | Throw e =>
           mkState (Some (calculate Math_pow data)) (Some fallback_explanation) false
             (console s ++ [("AI explanation failed:", e)])
       end
     else
       mkState (Some (calculate Math_pow data)) (Some fallback_explanation) false
         (console s ++ [("AI explanation failed:", ValidationError)]))).
  { unfold onSubmit, bind. rewrite onSubmit_begin_spec, explainFDResults_spec.
    destruct (Flow.valid_input _); [|reflexivity].
    destruct (prompt _) as [[o|]|e]; reflexivity. }
  split; [exact H|].
  intros Hinf. rewrite H. cbn [snd].
  unfold Flow.valid_input, explanation_request.
  cbn [Flow.principal Flow.tenure Flow.interestRate Flow.maturityAmount Flow.totalInterest].
  rewrite Hinf, andb_false_r. reflexivity.
Qed.

(** X6: after a submission whose call is fulfilled, the page shows the
    results of the calculation, no skeleton, and the text of the answer
    exactly when that is not empty: for an empty text the explanation block
    is not rendered at all (no text, no skeleton, no fallback) while the
    results are. *)
Theorem empty_explanation_hidden
    (prompt : Flow.ExplainFDResultsInput -> Flow.Generation)
    (data : FormValues) (s : State) (o : Flow.ExplainFDResultsOutput) :
  Flow.explainFDResults prompt (explanation_request data (calculate Math_pow data)) =
    Normal (Some o) ->
  let s' := snd (onSubmit Math_pow prompt data s) in
  explanation s' = Some (Flow.explanation o) /\
  render s' =
    mkView false (Some (calculate Math_pow data)) false
      (if truthy_string (Flow.explanation o) then Some (Flow.explanation o) else None) /\
  (Flow.explanation o = "" ->
   shown_results (render s') = Some (calculate Math_pow data) /\
   shown_skeleton (render s') = false /\
   shown_explanation (render s') = None).
Proof.
  intros Hreply. cbv zeta. unfold onSubmit, bind.
  rewrite onSubmit_begin_spec, Hreply, onSubmit_resume_explained.
  cbn [snd results explanation console].
  assert (Hview : render (mkState (Some (calculate Math_pow data))
                            (Some (Flow.explanation o)) false (console s)) =
                  mkView false (Some (calculate Math_pow data)) false
                    (if truthy_string (Flow.explanation o)
                     then Some (Flow.explanation o) else None)).
  { unfold render. cbn [isLoading explanation results is_some truthy_explanation].
    destruct (truthy_string (Flow.explanation o)); reflexivity. }
  split; [reflexivity|]. split; [exact Hview|].
  intros Hempty. rewrite Hview, Hempty. repeat split.
Qed.

(** *** Every page an event sequence leads to *)

Lemma run_snoc (p : Page) (evs : list Event) (ev : Event) :
  run Math_pow p (evs ++ [ev]) = step Math_pow (run Math_pow p evs) ev.
Proof. unfold run. now rewrite fold_left_app. Qed.

Lemma page_phase_step (p : Page) (ev : Event) :
  page_phase p -> page_phase (step Math_pow p ev).
Proof.
  intros Hph. destruct ev as [raw|call reply]; unfold step.
  - cbn [render submit_disabled].
    destruct (isLoading (component p)) eqn:Hload; [exact Hph|].
    unfold handleSubmit. destruct (formSchema raw) as [issues|data].
    + destruct Hph as [[Hc Hp]|[(r & c & rq & Hc & Hp)|(r & e & Hc & Hp)]].
      * left. now split.
      * right. left. exists r, c, rq. now split.
      * right. right. exists r, e. now split.
    + rewrite onSubmit_begin_spec. right. left.
      assert (Hpend : pending p = []).
      { destruct Hph as [[_ Hp]|[(r & c & rq & Hc & _)|(r & e & _ & Hp)]];
          try assumption. rewrite Hc in Hload. discriminate. }
      exists (calculate Math_pow data), (next_call p),
        (explanation_request data (calculate Math_pow data)).
      cbn [component pending console]. now rewrite Hpend.
  - destruct (lookup_call call (pending p)) as [request|] eqn:Hlook; [|exact Hph].
    destruct Hph as [[_ Hp]|[(r & c & rq & Hc & Hp)|(r & e & _ & Hp)]];
      try (rewrite Hp in Hlook; discriminate).
    right. right.
    destruct (onSubmit_resume_state reply (component p)) as [cs Hs].
    exists r, (explanation_for reply). cbn [component pending]. rewrite Hs.
    cbn [snd console]. split.
    + rewrite Hc. reflexivity.
    + rewrite Hp in Hlook |- *. cbn in Hlook |- *.
      destruct (Nat.eqb c call); [reflexivity | discriminate].
Qed.

Lemma page_phase_run (evs : list Event) : page_phase (run Math_pow initial_page evs).
Proof.
  induction evs as [|ev evs IH] using rev_ind.
  - left. split; reflexivity.
  - rewrite run_snoc. now apply page_phase_step.
Qed.

(** X7: whatever the events, the page shows one of three things: nothing
    with the button enabled (no submission accepted so far); the skeleton
    alone with the button disabled (a call is pending: no results, no text
    yet); or, with the button enabled again, the results together with the
    explanation, unless that is empty. *)
Theorem view_phases (evs : list Event) :
  let v := render (component (run Math_pow initial_page evs)) in
  v = mkView false None false None \/
  v = mkView true None true None \/
  exists (r : Results) (e : string),
    v = mkView false (Some r) false (if truthy_string e then Some e else None).
Proof.
  cbv zeta.
  destruct (page_phase_run evs) as [[Hc _]|[(r & c & rq & Hc & _)|(r & e & Hc & _)]];
    rewrite Hc.
  - left. reflexivity.
  - right. left. reflexivity.
  - right. right. exists r, e. unfold render.
    cbn [isLoading results explanation is_some truthy_explanation].
    destruct (truthy_string e); reflexivity.
Qed.

(** X8: results on the page always come from a submission the schema
    accepted: they are the calculation for the parsed values of a [Submit]
    among the events, never anything for a rejected input. *)
Theorem results_from_accepted_submission (evs : list Event) (r : Results) :
  results (component (run Math_pow initial_page evs)) = Some r ->
  exists (raw : RawValues) (data : FormValues),
    In (Submit raw) evs /\ formSchema raw = inr data /\ r = calculate Math_pow data.
Proof.
  revert r. induction evs as [|ev evs IH] using rev_ind; intros r; [discriminate|].
  rewrite run_snoc. set (p := run Math_pow initial_page evs) in *.
  assert (Hold : results (component p) = Some r ->
                 exists raw data, In (Submit raw) (evs ++ [ev]) /\
                   formSchema raw = inr data /\ r = calculate Math_pow data).
  { intros H. destruct (IH r H) as (raw & data & Hin & Hrest).
    exists raw, data. split; [apply in_or_app; now left | exact Hrest]. }
  destruct ev as [raw|call reply]; unfold step.
  - destruct (submit_disabled (render (component p))); [exact Hold|].
    unfold handleSubmit. destruct (formSchema raw) as [issues|data] eqn:Hparse;
      [exact Hold|].
    rewrite onSubmit_begin_spec. cbn [component results]. intros [= <-].
    exists raw, data. split; [apply in_or_app; right; now left|]. now split.
  - destruct (lookup_call call (pending p)); [|exact Hold].
    cbn [component]. rewrite onSubmit_resume_results. exact Hold.
Qed.

(** X9: the explanation on the page always comes from a reply among the
    events: it is the text of a call that settled successfully, or the
    fallback text of a call that failed; no text appears without a settled
    call. *)
Theorem explanation_from_settled_call (evs : list Event) (e : string) :
  explanation (component (run Math_pow initial_page evs)) = Some e ->
  exists (call : nat) (reply : Flow.Generation),
    In (Settle call reply) evs /\ e = explanation_for reply.
Proof.
  revert e. induction evs as [|ev evs IH] using rev_ind; intros e; [discriminate|].
  rewrite run_snoc. set (p := run Math_pow initial_page evs) in *.
  assert (Hold : explanation (component p) = Some e ->
                 exists call reply, In (Settle call reply) (evs ++ [ev]) /\
                   e = explanation_for reply).
  { intros H. destruct (IH e H) as (call & reply & Hin & Hrest).
    exists call, reply. split; [apply in_or_app; now left | exact Hrest]. }
  destruct ev as [raw|call reply]; unfold step.
  - destruct (submit_disabled (render (component p))); [exact Hold|].
    unfold handleSubmit. destruct (formSchema raw) as [issues|data]; [exact Hold|].
    rewrite onSubmit_begin_spec. discriminate.
  - destruct (lookup_call call (pending p)); [|exact Hold].
    cbn [component].
    destruct (onSubmit_resume_state reply (component p)) as [cs Hs]. rewrite Hs.
    cbn [snd explanation]. intros [= <-].
    exists call, reply. split; [apply in_or_app; right; now left | reflexivity].
Qed.

End Coverage.

(** ** When the results are not numbers *)

Lemma is_infinity_spec (x : float) :
  is_infinity x = match Prim2SF x with S754_infinity _ => true | _ => false end.
Proof.
  unfold is_infinity. rewrite FloatAxioms.eqb_spec, abs_spec.
  change (Prim2SF infinity) with (S754_infinity false).
  destruct (Prim2SF x) as [s|s| |s m e]; reflexivity.
Qed.

Section NotANumber.

Variable Math_pow : number -> number -> number.

(** For accepted values, and a power that is at least its base, the
    maturity amount is a number, and the total interest is one unless the
    principal is infinite. *)
Lemma calculate_nan (data : FormValues) :
  accepted data ->
  (growth_base data <= Math_pow (growth_base data) (growth_exponent data))%number ->
  is_nan (maturityAmount (calculate Math_pow data)) = false /\
  is_nan (totalInterest (calculate Math_pow data)) = is_infinity (principal data).
Proof.
  intros Hacc Hpow.
  destruct (accepted_fields data Hacc) as ((Hnan & Hmin) & _).
  assert (Hp : at_least (2 ^ 52) (-52) (Prim2SF (principal data))).
  { apply (Binary64.not_ltb_at_least _ 1 4503599627370496 (-52));
      [reflexivity | lia | assumption | assumption]. }
  assert (Hq : at_least (2 ^ 52 + 1) (-52)
                 (Prim2SF (Math_pow (growth_base data) (growth_exponent data)))).
  { apply (Binary64.leb_at_least (growth_base data)); [lia| |exact Hpow].
    now apply growth_base_above_one. }
  change (maturityAmount (calculate Math_pow data))
    with (principal data * Math_pow (growth_base data) (growth_exponent data)).
  change (totalInterest (calculate Math_pow data))
    with (principal data * Math_pow (growth_base data) (growth_exponent data)
          - principal data).
  set (q := Math_pow (growth_base data) (growth_exponent data)) in *.
  rewrite (is_infinity_spec (principal data)).
  destruct (Prim2SF (principal data)) as [s|[]| |[] mp ep] eqn:Ep;
    cbn [at_least] in Hp; try tauto.
  - (* an infinite principal *)
    assert (Hm : Prim2SF (principal data * q) = S754_infinity false).
    { rewrite mul_spec, Ep.
      destruct (Prim2SF q) as [s|[]| |[] mq eq]; cbn [at_least] in Hq; try tauto;
        reflexivity. }
    split.
    + rewrite DoubleOrder.is_nan_spec, Hm. reflexivity.
    + rewrite DoubleOrder.is_nan_spec, sub_spec, Hm, Ep. reflexivity.
  - (* a finite one *)
    destruct Hp as [Hd Hep].
    pose proof (Binary64.mul_above_one (principal data) q mp ep Ep Hd ltac:(lia) Hq) as Hm.
    split.
    + rewrite DoubleOrder.is_nan_spec.
      destruct (Prim2SF (principal data * q)) as [s|[]| |[] mm em];
        cbn [at_least] in Hm; try tauto; reflexivity.
    + pose proof (Binary64.sub_positive (principal data) (principal data * q) mp ep Ep Hd Hm)
        as Hpos.
      rewrite ltb_spec in Hpos. rewrite DoubleOrder.is_nan_spec.
      destruct (Prim2SF (principal data * q - principal data)); try reflexivity.
      discriminate Hpos.
Qed.

(** X10: for accepted values (and a power at least its base) the maturity
    amount is never [NaN], and the total interest is [NaN] exactly when the
    principal is [Infinity]. *)
Theorem results_nan_only_for_infinite_principal (data : FormValues) :
  accepted data ->
  (growth_base data <= Math_pow (growth_base data) (growth_exponent data))%number ->
  isNaN (maturityAmount (calculate Math_pow data)) = false /\
  (isNaN (totalInterest (calculate Math_pow data)) = true <->
   is_infinity (principal data) = true).
Proof.
  intros Hacc Hpow. destruct (calculate_nan data Hacc Hpow) as [Hm Hi].
  unfold isNaN. rewrite Hi. split; [exact Hm | reflexivity].
Qed.

End NotANumber.

(** ** The order of roundings *)

Module Rounding.

Local Open Scope Z_scope.

(** *** Shifting right keeps the order *)

Lemma shr_1_weight (a b : shr_record) :
  0 <= shr_m a -> shr_weight a <= shr_weight b ->
  0 <= shr_m (shr_1 a) /\ shr_weight (shr_1 a) <= shr_weight (shr_1 b).
Proof.
  destruct a as [ma ra sa], b as [mb rb sb]. unfold shr_weight. cbn [shr_m shr_r shr_s].
  intros Ha H.
  destruct ma as [|[pa|pa|]|pa]; try lia;
    destruct mb as [|[pb|pb|]|pb]; destruct ra, sa, rb, sb;
    cbn [shr_1 shr_m shr_r shr_s orb]; lia.
Qed.

Lemma iter_pos_weight (p : positive) (a b : shr_record) :
  0 <= shr_m a -> shr_weight a <= shr_weight b ->
  0 <= shr_m (SpecFloat.iter_pos shr_1 p a) /\
  shr_weight (SpecFloat.iter_pos shr_1 p a) <= shr_weight (SpecFloat.iter_pos shr_1 p b).
Proof.
  revert a b. induction p as [p IH|p IH|]; intros a b Ha H; cbn [SpecFloat.iter_pos].
  - destruct (shr_1_weight a b Ha H) as [H1 H2].
    destruct (IH _ _ H1 H2) as [H3 H4]. exact (IH _ _ H3 H4).
  - destruct (IH _ _ Ha H) as [H3 H4]. exact (IH _ _ H3 H4).
  - exact (shr_1_weight a b Ha H).
Qed.

Lemma shr_weight_exact (m1 m2 : Z) :
  m1 <= m2 ->
  shr_weight (shr_record_of_loc m1 loc_Exact) <= shr_weight (shr_record_of_loc m2 loc_Exact).
Proof. unfold shr_weight, shr_record_of_loc. cbn [shr_m shr_r shr_s]. lia. Qed.

Lemma shr_weight_order (m1 m2 e n : Z) :
  0 <= m1 <= m2 ->
  shr_weight (fst (shr (shr_record_of_loc m1 loc_Exact) e n)) <=
  shr_weight (fst (shr (shr_record_of_loc m2 loc_Exact) e n)).
Proof.
  intros H. destruct n as [|p|p]; cbn [shr fst].
  - apply shr_weight_exact. lia.
  - apply iter_pos_weight; [rewrite Binary64.shr_m_shr_record_of_loc; lia|].
    apply shr_weight_exact. lia.
  - apply shr_weight_exact. lia.
Qed.

(** *** Rounding to nearest even keeps the order *)

Lemma round_nearest_even_weight (a b : shr_record) :
  shr_weight a <= shr_weight b ->
  round_nearest_even (shr_m a) (loc_of_shr_record a) <=
  round_nearest_even (shr_m b) (loc_of_shr_record b).
Proof.
  destruct a as [ma ra sa], b as [mb rb sb]. unfold shr_weight. cbn [shr_m shr_r shr_s].
  intros H.
  destruct (Z.eq_dec ma mb) as [->|Hne].
  - destruct ra, sa, rb, sb; cbn [loc_of_shr_record round_nearest_even];
      try lia; destruct (Z.even mb); lia.
  - pose proof (Binary64.round_nearest_even_bounds ma
                  (loc_of_shr_record (Build_shr_record ma ra sa))).
    pose proof (Binary64.round_nearest_even_bounds mb
                  (loc_of_shr_record (Build_shr_record mb rb sb))).
    assert (ma < mb) by (destruct ra, sa, rb, sb; lia).
    lia.
Qed.

(** *** What rounding a long mantissa gives *)

Lemma binary_round_aux_rounded (q : positive) (e : Z) :
  let d := Zpos (digits2_pos q) in
  53 <= d -> -1074 <= e + d - 53 ->
  let mrs := fst (shr (shr_record_of_loc (Zpos q) loc_Exact) e (d - 53)) in
  let m := round_nearest_even (shr_m mrs) (loc_of_shr_record mrs) in
  2 ^ 52 <= m <= 2 ^ 53 /\
  binary_round_aux prec emax false (Zpos q) e loc_Exact = rounded m (e + d - 53).
Proof.
  intros d Hd He mrs m. unfold binary_round_aux.
  assert (Hn1 : fexp64 (Zdigits2 (Zpos q) + e) = e + d - 53).
  { rewrite Binary64.Zdigits2_pos. fold d. unfold fexp64. lia. }
  assert (Hshr : shr_fexp prec emax (Zpos q) e loc_Exact = (mrs, e + d - 53)).
  { unfold shr_fexp. rewrite Binary64.fexp_binary64, Hn1.
    replace (e + d - 53 - e) with (d - 53) by lia.
    destruct (Binary64.shr_spec (Zpos q) loc_Exact e (d - 53)) as [_ H2]; [lia|lia|].
    subst mrs.
    destruct (shr (shr_record_of_loc (Zpos q) loc_Exact) e (d - 53)) as [a b].
    cbn [fst snd] in *. f_equal. lia. }
  rewrite Hshr. fold m.
  assert (Hm1 : shr_m mrs = Zpos q / 2 ^ (d - 53)).
  { destruct (Binary64.shr_spec (Zpos q) loc_Exact e (d - 53)) as [H1 _]; [lia|lia|].
    exact H1. }
  assert (Hpow : 0 < 2 ^ (d - 53)) by (apply Z.pow_pos_nonneg; lia).
  assert (Hm1b : 2 ^ 52 <= shr_m mrs < 2 ^ 53).
  { pose proof (Binary64.digits2_bounds q) as Hq. fold d in Hq.
    replace (d - 1) with (52 + (d - 53)) in Hq by lia.
    replace d with (53 + (d - 53)) in Hq at 2 by lia.
    rewrite !Z.pow_add_r in Hq by lia.
    rewrite Hm1. split.
    - apply Z.div_le_lower_bound; lia.
    - apply Z.div_lt_upper_bound; lia. }
  pose proof (Binary64.round_nearest_even_bounds (shr_m mrs) (loc_of_shr_record mrs)) as Hrne.
  fold m in Hrne.
  assert (Hm2 : 2 ^ 52 <= m <= 2 ^ 53) by lia.
  split; [exact Hm2|].
  clearbody m. clear Hrne Hm1b Hm1 Hshr. clearbody mrs.
  set (e1 := e + d - 53) in *.
  destruct (shr_fexp prec emax m e1 loc_Exact) as [mrs2 e2] eqn:Hshr2.
  destruct m as [|m2|m2]; try (exfalso; lia).
  unfold rounded.
  destruct (Z.eqb_spec (Zpos m2) (2 ^ 53)) as [Hbig|Hne].
  - assert (Hdig : Zpos (digits2_pos m2) = 54) by (apply Binary64.digits2_unique; lia).
    apply Binary64.shr_fexp_spec in Hshr2.
    + rewrite Binary64.Zdigits2_pos, Hdig in Hshr2. destruct Hshr2 as [Hm Hex].
      assert (Hf : fexp64 (54 + e1) = e1 + 1) by (unfold fexp64; lia).
      rewrite Hf in Hm, Hex. replace (e1 + 1 - e1) with 1 in Hm by lia.
      rewrite Hm, Hbig, Hex. reflexivity.
    + lia.
    + rewrite Binary64.Zdigits2_pos, Hdig. unfold fexp64. lia.
  - assert (Hd2 : Zpos (digits2_pos m2) = 53) by (apply Binary64.digits2_unique; lia).
    apply Binary64.shr_fexp_spec in Hshr2.
    + rewrite Binary64.Zdigits2_pos, Hd2 in Hshr2. destruct Hshr2 as [Hm Hex].
      assert (Hf : fexp64 (53 + e1) = e1) by (unfold fexp64; lia).
      rewrite Hf in Hm, Hex. replace (e1 - e1) with 0 in Hm by lia.
      rewrite Z.div_1_r in Hm. rewrite Hm, Hex. reflexivity.
    + lia.
    + rewrite Binary64.Zdigits2_pos, Hd2. unfold fexp64. lia.
Qed.

(** *** The order of the results *)

Lemma SFleb_finite (m1 m2 : positive) (e1 e2 : Z) :
  e1 < e2 \/ (e1 = e2 /\ Zpos m1 <= Zpos m2) ->
  SFleb (S754_finite false m1 e1) (S754_finite false m2 e2) = true.
Proof.
  intros H. unfold SFleb. cbn [SFcompare].
  change (Pos.compare_cont Eq m1 m2) with (Pos.compare m1 m2).
  destruct (Z.compare_spec e1 e2) as [Heq|Hlt|Hgt]; try reflexivity; try lia.
  destruct (Pos.compare_spec m1 m2) as [Hm|Hm|Hm]; try reflexivity. lia.
Qed.

Lemma rounded_order (m1 m2 e1 e2 : Z) :
  2 ^ 52 <= m1 <= 2 ^ 53 -> 2 ^ 52 <= m2 <= 2 ^ 53 ->
  e1 < e2 \/ (e1 = e2 /\ m1 <= m2) ->
  SFleb (rounded m1 e1) (rounded m2 e2) = true.
Proof.
  intros H1 H2 H. unfold rounded.
  destruct (Z.eqb_spec m1 (2 ^ 53)) as [E1|E1], (Z.eqb_spec m2 (2 ^ 53)) as [E2|E2].
  - change (2 ^ 52) with (Zpos 4503599627370496).
    destruct (Z.leb_spec (e1 + 1) (emax - prec)), (Z.leb_spec (e2 + 1) (emax - prec));
      try reflexivity; try lia.
    apply SFleb_finite. lia.
  - destruct m2 as [|p2|p2]; try lia.
    change (2 ^ 52) with (Zpos 4503599627370496) in *.
    destruct (Z.leb_spec (e1 + 1) (emax - prec)), (Z.leb_spec e2 (emax - prec));
      try reflexivity; try lia.
    apply SFleb_finite. lia.
  - destruct m1 as [|p1|p1]; try lia.
    change (2 ^ 52) with (Zpos 4503599627370496) in *.
    destruct (Z.leb_spec e1 (emax - prec)), (Z.leb_spec (e2 + 1) (emax - prec));
      try reflexivity; try lia.
    apply SFleb_finite. lia.
  - destruct m1 as [|p1|p1]; try lia. destruct m2 as [|p2|p2]; try lia.
    destruct (Z.leb_spec e1 (emax - prec)), (Z.leb_spec e2 (emax - prec));
      try reflexivity; try lia.
    apply SFleb_finite. lia.
Qed.

Lemma digits2_order (q1 q2 : positive) :
  Zpos q1 <= Zpos q2 -> Zpos (digits2_pos q1) <= Zpos (digits2_pos q2).
Proof.
  intros H. rewrite !Binary64.digits2_log2.
  pose proof (Z.log2_le_mono _ _ H). lia.
Qed.

(** Of two long mantissas at one exponent, the larger rounds to the larger
    double. *)
Lemma binary_round_aux_order (q1 q2 : positive) (e : Z) :
  Zpos q1 <= Zpos q2 ->
  53 <= Zpos (digits2_pos q1) -> -1074 <= e + Zpos (digits2_pos q1) - 53 ->
  SFleb (binary_round_aux prec emax false (Zpos q1) e loc_Exact)
        (binary_round_aux prec emax false (Zpos q2) e loc_Exact) = true.
Proof.
  intros Hq Hd He. pose proof (digits2_order q1 q2 Hq) as Hdd.
  destruct (binary_round_aux_rounded q1 e Hd He) as [Hm1 ->].
  destruct (binary_round_aux_rounded q2 e) as [Hm2 ->]; [lia|lia|].
  apply rounded_order; [exact Hm1 | exact Hm2 |].
  destruct (Z.eq_dec (Zpos (digits2_pos q1)) (Zpos (digits2_pos q2))) as [Heq|Hne];
    [right|left; lia].
  split; [lia|]. rewrite <- Heq.
  apply round_nearest_even_weight, shr_weight_order. lia.
Qed.

(** *** Rounding does not depend on how the mantissa is aligned *)

Lemma iter_pos_nat {A : Type} (f : A -> A) (p : positive) (x : A) :
  SpecFloat.iter_pos f p x = Nat.iter (Pos.to_nat p) f x.
Proof.
  revert x. induction p as [p IH|p IH|]; intros x; cbn [SpecFloat.iter_pos].
  - rewrite !IH, Pos2Nat.inj_xI, <- Nat.iter_add, <- Nat.iter_succ_r.
    f_equal. lia.
  - rewrite !IH, Pos2Nat.inj_xO, <- Nat.iter_add. f_equal. lia.
  - reflexivity.
Qed.

Lemma iter_pos_add {A : Type} (f : A -> A) (p q : positive) (x : A) :
  SpecFloat.iter_pos f (p + q) x = SpecFloat.iter_pos f p (SpecFloat.iter_pos f q x).
Proof. rewrite !iter_pos_nat, Pos2Nat.inj_add. apply Nat.iter_add. Qed.

Lemma shr_aligned (q : positive) (e n k : Z) :
  0 <= n -> 0 <= k ->
  fst (shr (shr_record_of_loc (Zpos q * 2 ^ k) loc_Exact) (e - k) (n + k)) =
  fst (shr (shr_record_of_loc (Zpos q) loc_Exact) e n).
Proof.
  intros Hn Hk.
  destruct k as [|k|k]; try lia.
  - rewrite Z.add_0_r, Z.mul_1_r.
    destruct n; reflexivity.
  - destruct n as [|n|n]; try lia.
    + cbn [Z.add shr fst]. unfold shr_record_of_loc.
      apply Binary64.iter_shr_1_exact. lia.
    + change (Zpos n + Zpos k) with (Zpos (n + k)). cbn [shr fst].
      rewrite iter_pos_add. unfold shr_record_of_loc at 1.
      rewrite Binary64.iter_shr_1_exact by lia. reflexivity.
Qed.

Lemma binary_round_aux_aligned (q qk : positive) (e k : Z) :
  0 <= k -> Zpos qk = Zpos q * 2 ^ k ->
  53 <= Zpos (digits2_pos q) -> -1074 <= e + Zpos (digits2_pos q) - 53 ->
  binary_round_aux prec emax false (Zpos qk) (e - k) loc_Exact =
  binary_round_aux prec emax false (Zpos q) e loc_Exact.
Proof.
  intros Hk Hqk Hd He.
  pose proof (Binary64.digits2_shift q k qk Hk Hqk) as Hdk.
  destruct (binary_round_aux_rounded q e Hd He) as [_ ->].
  destruct (binary_round_aux_rounded qk (e - k)) as [_ ->]; [lia|lia|].
  rewrite Hdk, Hqk.
  replace (Zpos (digits2_pos q) + k - 53) with (Zpos (digits2_pos q) - 53 + k) by lia.
  rewrite shr_aligned by lia.
  f_equal. lia.
Qed.

(** *** Multiplication keeps the order *)

Lemma SFmul_order (mx my mq : positive) (ex ey eq : Z) :
  Zpos (digits2_pos mx) = 53 -> Zpos (digits2_pos my) = 53 ->
  Zpos (digits2_pos mq) = 53 ->
  -1074 <= ex + eq + 52 ->
  ex < ey \/ (ex = ey /\ Zpos mx <= Zpos my) ->
  SFleb (SFmul prec emax (S754_finite false mx ex) (S754_finite false mq eq))
        (SFmul prec emax (S754_finite false my ey) (S754_finite false mq eq)) = true.
Proof.
  intros Hx Hy Hq He Hle. cbn [SFmul xorb].
  apply Binary64.digits2_53 in Hx, Hy, Hq.
  set (k := ey - ex).
  assert (Hk : 0 <= k) by (unfold k; lia).
  assert (Hpk : 0 < 2 ^ k) by (apply Z.pow_pos_nonneg; lia).
  assert (Hprod : forall a b : positive,
             2 ^ 52 <= Zpos a < 2 ^ 53 -> 2 ^ 52 <= Zpos b < 2 ^ 53 ->
             105 <= Zpos (digits2_pos (a * b))).
  { intros a b Ha Hb.
    assert (H104 : 2 ^ 104 <= Zpos (a * b)).
    { rewrite Pos2Z.inj_mul. change (2 ^ 104) with (2 ^ 52 * 2 ^ 52). nia. }
    pose proof (Binary64.digits2_bounds (a * b)) as Hb2.
    destruct (Z.lt_ge_cases (Zpos (digits2_pos (a * b))) 105) as [Hlt|]; [|assumption].
    assert (2 ^ Zpos (digits2_pos (a * b)) <= 2 ^ 104) by (apply Z.pow_le_mono_r; lia).
    lia. }
  pose proof (Hprod mx mq Hx Hq) as Hdx.
  pose proof (Hprod my mq Hy Hq) as Hdy.
  set (qk := Z.to_pos (Zpos (my * mq) * 2 ^ k)).
  assert (Hqk : Zpos qk = Zpos (my * mq) * 2 ^ k) by (unfold qk; rewrite Z2Pos.id; lia).
  rewrite <- (binary_round_aux_aligned (my * mq) qk (ey + eq) k Hk Hqk) by lia.
  replace (ey + eq - k) with (ex + eq) by (unfold k; lia).
  apply binary_round_aux_order; [|lia|lia].
  rewrite Hqk, !Pos2Z.inj_mul.
  destruct Hle as [Hlt|[Heq Hm]].
  - assert (2 <= 2 ^ k).
    { change 2 with (2 ^ 1) at 1. apply Z.pow_le_mono_r; unfold k; lia. }
    assert (Hxy : Zpos mx <= Zpos my * 2 ^ k).
    { apply Z.le_trans with (Zpos my * 2); [|apply Z.mul_le_mono_nonneg_l; lia].
      change (2 ^ 53) with (2 ^ 52 * 2) in *. lia. }
    replace (Zpos my * Zpos mq * 2 ^ k) with (Zpos my * 2 ^ k * Zpos mq) by ring.
    apply Z.mul_le_mono_nonneg_r; lia.
  - replace k with 0 by (unfold k; lia). change (2 ^ 0) with 1.
    rewrite Z.mul_1_r. apply Z.mul_le_mono_nonneg_r; lia.
Qed.

Lemma SFleb_finite_inv (m1 m2 : positive) (e1 e2 : Z) :
  SFleb (S754_finite false m1 e1) (S754_finite false m2 e2) = true ->
  e1 < e2 \/ (e1 = e2 /\ Zpos m1 <= Zpos m2).
Proof.
  unfold SFleb. cbn [SFcompare].
  change (Pos.compare_cont Eq m1 m2) with (Pos.compare m1 m2).
  destruct (Z.compare_spec e1 e2) as [Heq|Hlt|Hgt]; try discriminate; [|lia].
  destruct (Pos.compare_spec m1 m2) as [Hm|Hm|Hm]; try discriminate; lia.
Qed.

Lemma SFleb_infinity (R : spec_float) :
  R <> S754_nan -> SFleb R (S754_infinity false) = true.
Proof. destruct R as [s|[]| |s m e]; try reflexivity. congruence. Qed.

(** Multiplying two numbers of at least one by a third keeps their order. *)
Lemma mul_order (x y q : float) :
  at_least (2 ^ 52) (-52) (Prim2SF x) ->
  at_least (2 ^ 52) (-52) (Prim2SF q) ->
  (x <=? y)%float = true -> (x * q <=? y * q)%float = true.
Proof.
  intros Hx Hq Hle.
  pose proof (Binary64.leb_at_least x y (2 ^ 52) (-52) ltac:(lia) Hx Hle) as Hy.
  rewrite leb_spec in Hle. rewrite leb_spec, !mul_spec. unfold SF64mul.
  destruct (Prim2SF x) as [sx|[]| |[] mx ex]; cbn [at_least] in Hx; try tauto;
    destruct (Prim2SF y) as [sy|[]| |[] my ey]; cbn [at_least] in Hy; try tauto;
    try discriminate Hle;
    destruct (Prim2SF q) as [sq|[]| |[] mq eq]; cbn [at_least] in Hq; try tauto;
    try reflexivity.
  - (* only the second is infinite *)
    apply SFleb_infinity.
    assert (H : at_least (Zpos mx * Zpos mq / 2 ^ 52) (ex + eq + 52)
                  (SFmul prec emax (S754_finite false mx ex) (S754_finite false mq eq)))
      by (apply Binary64.SFmul_at_least; [tauto | tauto | lia]).
    destruct (SFmul prec emax _ _); cbn [at_least] in H; [discriminate | discriminate | | discriminate].
    destruct H.
  - (* three finite numbers *)
    apply SFmul_order; try tauto; try lia.
    apply SFleb_finite_inv. exact Hle.
Qed.

End Rounding.

Section Monotone.

Variable Math_pow : number -> number -> number.

(** X11: a larger principal never gives a smaller maturity amount, the
    other three values being the same (for accepted values, and a power at
    least its base): each rounding of [principal * Math.pow(...)] keeps the
    order of the principals. *)
Theorem maturity_monotone_in_principal (data : FormValues) (more : number) :
  accepted data ->
  (growth_base data <= Math_pow (growth_base data) (growth_exponent data))%number ->
  (principal data <= more)%number ->
  (maturityAmount (calculate Math_pow data) <=
   maturityAmount
     (calculate Math_pow
        (mkFormValues more (tenure data) (interestRate data)
           (compoundingFrequency data))))%number.
Proof.
  intros Hacc Hpow Hle.
  destruct (accepted_fields data Hacc) as ((Hnan & Hmin) & _).
  assert (Hp : at_least (2 ^ 52) (-52) (Prim2SF (principal data))).
  { apply (Binary64.not_ltb_at_least _ 1 4503599627370496 (-52));
      [reflexivity | lia | assumption | assumption]. }
  assert (Hq : at_least (2 ^ 52) (-52)
                 (Prim2SF (Math_pow (growth_base data) (growth_exponent data)))).
  { apply (Binary64.leb_at_least (growth_base data)); [lia| |exact Hpow].
    eapply Binary64.at_least_weaken; [now apply growth_base_above_one|].
    right. split; lia. }
  exact (Rounding.mul_order _ _ _ Hp Hq Hle).
Qed.

End Monotone.

(** ** The assumptions of the above are met *)

Lemma results_from_accepted_submission_witness :
  results (component (run pow_repeated initial_page default_submission)) =
    Some (calculate pow_repeated default_values) /\
  exists (raw : RawValues) (data : FormValues),
    In (Submit raw) default_submission /\ formSchema raw = inr data /\
    calculate pow_repeated default_values = calculate pow_repeated data.
Proof.
  assert (H : results (component (run pow_repeated initial_page default_submission)) =
              Some (calculate pow_repeated default_values)) by (vm_compute; reflexivity).
  split; [exact H|].
  exact (results_from_accepted_submission pow_repeated default_submission
           (calculate pow_repeated default_values) H).
Defined.

Lemma empty_explanation_hidden_witness :
  Flow.explainFDResults empty_answer
    (explanation_request default_values (calculate pow_repeated default_values)) =
    Normal (Some (Flow.mkOutput EmptyString)) /\
  render (snd (onSubmit pow_repeated empty_answer default_values initial_state)) =
    mkView false (Some (calculate pow_repeated default_values)) false None.
Proof.
  assert (H : Flow.explainFDResults empty_answer
                (explanation_request default_values
                   (calculate pow_repeated default_values)) =
              Normal (Some (Flow.mkOutput EmptyString))) by (vm_compute; reflexivity).
  split; [exact H|].
  exact (proj1 (proj2 (empty_explanation_hidden pow_repeated empty_answer
                         default_values initial_state (Flow.mkOutput EmptyString) H))).
Defined.

Lemma explanation_from_settled_call_witness :
  explanation (component (run pow_repeated initial_page timed_out_submission)) =
    Some fallback_explanation /\
  exists (call : nat) (reply : Flow.Generation),
    In (Settle call reply) timed_out_submission /\
    fallback_explanation = explanation_for reply.
Proof.
  assert (H : explanation (component (run pow_repeated initial_page timed_out_submission)) =
              Some fallback_explanation) by (vm_compute; reflexivity).
  split; [exact H|].
  exact (explanation_from_settled_call pow_repeated timed_out_submission
           fallback_explanation H).
Defined.

Lemma results_nan_only_for_infinite_principal_witness :
  accepted monthly_values /\
  (growth_base monthly_values <=
   pow_repeated (growth_base monthly_values) (growth_exponent monthly_values))%number /\
  isNaN (maturityAmount (calculate pow_repeated monthly_values)) = false /\
  (isNaN (totalInterest (calculate pow_repeated monthly_values)) = true <->
   is_infinity (principal monthly_values) = true).
Proof.
  assert (Ha : accepted monthly_values) by (vm_compute; reflexivity).
  assert (Hp : (growth_base monthly_values <=
                pow_repeated (growth_base monthly_values) (growth_exponent monthly_values))%number)
    by (vm_compute; reflexivity).
  split; [exact Ha|]. split; [exact Hp|].
  exact (results_nan_only_for_infinite_principal pow_repeated monthly_values Ha Hp).
Defined.

Lemma maturity_monotone_in_principal_witness :
  accepted default_values /\
  (growth_base default_values <=
   pow_repeated (growth_base default_values) (growth_exponent default_values))%number /\
  (principal default_values <= 250000%float)%number /\
  (maturityAmount (calculate pow_repeated default_values) <=
   maturityAmount
     (calculate pow_repeated
        (mkFormValues 250000%float (tenure default_values) (interestRate default_values)
           (compoundingFrequency default_values))))%number.
Proof.
  assert (Ha : accepted default_values) by (vm_compute; reflexivity).
  assert (Hp : (growth_base default_values <=
                pow_repeated (growth_base default_values)
                  (growth_exponent default_values))%number)
    by (vm_compute; reflexivity).
  assert (Hl : (principal default_values <= 250000%float)%number) by (vm_compute; reflexivity).
  split; [exact Ha|]. split; [exact Hp|]. split; [exact Hl|].
  exact (maturity_monotone_in_principal pow_repeated default_values 250000%float Ha Hp Hl).
Defined.
